(** * go-rod [lib/utils]: sleepers, retry driver and idle counter

    A shallow embedding of the timing and retry helpers of
    [vendor/github.com/go-rod/rod/lib/utils/utils.go]:
    [CountSleeper], [DefaultBackoff], [BackoffSleeper], [IdleCounter]
    and [Retry], and of its pure helpers [E], [MultiLogger], [RandString]
    and [EscapeGoString].

    Closures become records of their captured variables together with a
    [call] function in state-passing style.  Blocking [select] statements
    take the case picked by the Go runtime as an explicit argument. *)

From Stdlib Require Import ZArith List String Bool Lia Floats.
From Stdlib Require Import Ascii.
From Stdlib.Strings Require Byte.
Import ListNotations.

Local Open Scope Z_scope.

(** ** Go base types *)

(** Go's [int] and [int64] (a 64-bit platform): two's complement. *)
Definition int := Z.

Definition MinInt64 : Z := - 2 ^ 63.
Definition MaxInt64 : Z := 2 ^ 63 - 1.

Definition wrap64 (x : Z) : Z := (x + 2 ^ 63) mod 2 ^ 64 - 2 ^ 63.

(** [time.Duration] is an [int64] count of nanoseconds. *)
Definition Duration := Z.

Definition Millisecond : Duration := 1000000.
Definition Second : Duration := 1000 * Millisecond.
Definition Hour : Duration := 3600 * Second.

(** The error values that occur in the package: the two errors of package
    [context], and [errors.New(msg)]. *)
Inductive error : Type :=
| Canceled
| DeadlineExceeded
| errorString (msg : string).

(** A [context.Context] as one call observes it: what [ctx.Err()] returns.
    [ctx.Done()] is closed exactly when [Err] is not nil. *)
Record Context : Type := { Err : option error }.

(** [context.Background()]: never canceled. *)
Definition Background : Context := {| Err := None |}.

Definition never_canceled (ctx : Context) : Prop := Err ctx = None.

(** [type Sleeper func(context.Context) error], the closure's captured
    variables being threaded as a state of type [S]. *)
Definition Sleeper (S : Type) : Type := Context -> S -> option error * S.

(** Successive calls of one sleeper, each with the token as seen then. *)
Fixpoint calls {S : Type} (s : Sleeper S) (ctxs : list Context) (st : S)
  : list (option error) * S :=
  match ctxs with
  | [] => ([], st)
  | ctx :: rest =>
      let (r, st1) := s ctx st in
      let (rs, st2) := calls s rest st1 in
      (r :: rs, st2)
  end.

(** ** CountSleeper *)

(** The variables captured by the closure [CountSleeper] returns. *)
Record CountSleeperClosure : Type := { max : int; count : int }.

Definition CountSleeper (max : int) : CountSleeperClosure :=
  {| max := max; count := 0 |}.

Definition CountSleeper_call : Sleeper CountSleeperClosure :=
  fun ctx c =>
    match Err ctx with
    | Some e => (Some e, c)
    | None =>
        if count c =? max c
        then (Some (errorString "max sleep count"), c)
        else (None, {| max := max c; count := wrap64 (count c + 1) |})
    end.

(** ** DefaultBackoff *)

(** [float64(x)] for an [int64] [x]: the nearest binary64 value. *)
Definition float64_of_int64 (x : Z) : float :=
  SF2Prim (binary_normalize prec emax x 0 false).

(** [int64(f)] for a [float64] [f]: the fraction is discarded.  Go leaves
    the result open when [f] is NaN, infinite or out of range; the value
    taken here is the one of amd64 ([MinInt64]). *)
Definition int64_of_float64 (f : float) : Z :=
  match Prim2SF f with
  | S754_zero _ => 0
  | S754_finite s m e =>
      let mag := if 0 <=? e then Z.shiftl (Zpos m) e
                 else Z.shiftr (Zpos m) (- e) in
      let v := if s then - mag else mag in
      if (MinInt64 <=? v) && (v <=? MaxInt64) then v else MinInt64
  | _ => MinInt64
  end.

(** [math/rand]'s global source lives outside the package: [mr.Float64()]
    is a step on the state [W] of everything an algorithm may touch. *)
Definition Rand (W : Type) : Type := W -> float * W.

(** [func(time.Duration) time.Duration], which may have effects on [W]. *)
Definition Algorithm (W : Type) : Type := Duration -> W -> Duration * W.

(** [0.2] is not a binary64 value; Go rounds the constant to the nearest
    one, which is written out here. *)
Definition DefaultBackoff {W : Type} (Float64 : Rand W) : Algorithm W :=
  fun interval w =>
    let (r, w1) := Float64 w in
    let scale := (2 + (r - 0.5) * 0x1.999999999999ap-3)%float in
    (int64_of_float64 (float64_of_int64 interval * scale)%float, w1).

(** ** BackoffSleeper *)

(** The variables captured by the closure [BackoffSleeper] returns:
    [init] is the one the closure assigns to. *)
Record BackoffSleeperClosure (W : Type) : Type := {
  init : Duration;
  maxInterval : Duration;
  algorithm : Algorithm W
}.
Arguments init {W} _.
Arguments maxInterval {W} _.
Arguments algorithm {W} _.

Definition BackoffSleeper {W : Type} (Float64 : Rand W)
  (init maxInterval : Duration) (algorithm : option (Algorithm W))
  : BackoffSleeperClosure W :=
  let algorithm :=
    match algorithm with
    | None => DefaultBackoff Float64
    | Some a => a
    end in
  {| init := init; maxInterval := maxInterval; algorithm := algorithm |}.

(** The case of a two-way [select] between [ctx.Done()] and a timer's
    channel that the runtime takes when both are ready. *)
Inductive selected : Type := CtxDone | TimerC.

(** What one call does that its caller can see: the error returned, and the
    duration given to [time.NewTimer], if a timer was made at all. *)
Record wake : Type := { ret : option error; timer : option Duration }.

(** The local [interval] of a call: the algorithm's result while [init] is
    below [maxInterval], and [maxInterval] from then on. *)
Definition interval_of {W : Type} (c : BackoffSleeperClosure W) (w : W)
  : Duration * W :=
  if init c <? maxInterval c
  then algorithm c (init c) w
  else (maxInterval c, w).

Definition set_init {W : Type} (c : BackoffSleeperClosure W) (d : Duration)
  : BackoffSleeperClosure W :=
  {| init := d; maxInterval := maxInterval c; algorithm := algorithm c |}.

Definition BackoffSleeper_call {W : Type}
  (ctx : Context) (ready : selected) (c : BackoffSleeperClosure W) (w : W)
  : wake * BackoffSleeperClosure W * W :=
  if maxInterval c <=? 0
  then ({| ret := None; timer := None |}, c, w)
  else
    let (interval, w1) := interval_of c w in
    match Err ctx, ready with
    | Some e, CtxDone =>
        ({| ret := Some e; timer := Some interval |}, c, w1)
    | _, _ =>
        ({| ret := None; timer := Some interval |}, set_init c interval, w1)
    end.

(** Successive calls of one backoff sleeper. *)
Fixpoint BackoffSleeper_calls {W : Type}
  (cs : list (Context * selected)) (c : BackoffSleeperClosure W) (w : W)
  : list wake * BackoffSleeperClosure W * W :=
  match cs with
  | [] => ([], c, w)
  | (ctx, ready) :: rest =>
      let '(k, c1, w1) := BackoffSleeper_call ctx ready c w in
      let '(ks, c2, w2) := BackoffSleeper_calls rest c1 w1 in
      (k :: ks, c2, w2)
  end.

(** The durations of the timers that fired: the intervals waited in full. *)
Definition waited (ks : list wake) : list Duration :=
  flat_map (fun k => match ret k, timer k with
                     | None, Some d => [d]
                     | _, _ => []
                     end) ks.

(** ** IdleCounter *)

(** A [time.Timer]: whether it is running, the duration it was last set
    to, and whether a tick waits in its channel [C] (capacity 1). *)
Record Timer : Type := { active : bool; period : Duration; C : bool }.

Definition NewTimer (d : Duration) : Timer :=
  {| active := true; period := d; C := false |}.

Definition Timer_Stop (t : Timer) : Timer :=
  {| active := false; period := period t; C := C t |}.

Definition Timer_Reset (t : Timer) (d : Duration) : Timer :=
  {| active := true; period := d; C := C t |}.

(** The runtime's part: a running timer expires and sends on [C]. *)
Definition Timer_expire (t : Timer) : Timer :=
  {| active := false; period := period t; C := true |}.

(** [<-t.C] when a tick is there. *)
Definition Timer_recv (t : Timer) : Timer :=
  {| active := active t; period := period t; C := false |}.

(** The fields of [IdleCounter].  The mutex is not a field here: what a
    method does between [Lock] and [Unlock] is one atomic step. *)
Record IdleCounter : Type := { job : int; duration : Duration; tmr : Timer }.

Definition set_tmr (de : IdleCounter) (t : Timer) : IdleCounter :=
  {| job := job de; duration := duration de; tmr := t |}.

Definition set_job (de : IdleCounter) (n : int) : IdleCounter :=
  {| job := n; duration := duration de; tmr := tmr de |}.

Definition NewIdleCounter (d : Duration) : IdleCounter :=
  let tmr := NewTimer Hour in
  let tmr := Timer_Stop tmr in
  {| job := 0; duration := d; tmr := tmr |}.

(** How a call ends: it returns, or it panics with a message.  Either way
    the state is what the call made of it (the deferred [Unlock] runs). *)
Inductive outcome (A : Type) : Type :=
| Returned (a : A)
| Panicked (msg : string) (a : A).
Arguments Returned {A} _.
Arguments Panicked {A} _ _.

Definition Add (de : IdleCounter) : IdleCounter :=
  let de := set_tmr de (Timer_Stop (tmr de)) in
  set_job de (wrap64 (job de + 1)).

Definition Done (de : IdleCounter) : outcome IdleCounter :=
  let de := set_job de (wrap64 (job de - 1)) in
  let de := if job de =? 0
            then set_tmr de (Timer_Reset (tmr de) (duration de))
            else de in
  if job de <? 0
  then Panicked "all jobs are already done" de
  else Returned de.

(** The locked first part of [Wait]. *)
Definition Wait_lock (de : IdleCounter) : IdleCounter :=
  if job de =? 0
  then set_tmr de (Timer_Reset (tmr de) (duration de))
  else de.

(** The [ctx.Done()] case of [Wait]'s [select]. *)
Definition Wait_canceled (de : IdleCounter) : IdleCounter :=
  set_tmr de (Timer_Stop (tmr de)).

(** [Wait] run with no other goroutine at work on the counter.  [None]:
    neither case of the [select] can ever become ready, the call blocks.
    [Wait] has no result value; the state is all it leaves behind. *)
Definition Wait (ctx : Context) (ready : selected) (de : IdleCounter)
  : option IdleCounter :=
  let de := Wait_lock de in
  let tick := C (tmr de) || active (tmr de) in
  match Err ctx, ready, tick with
  | Some _, CtxDone, _ | Some _, TimerC, false => Some (Wait_canceled de)
  | _, _, true =>
      let t := if C (tmr de) then tmr de else Timer_expire (tmr de) in
      Some (set_tmr de (Timer_recv t))
  | None, _, false => None
  end.

(** The atomic steps that goroutines sharing one counter interleave. *)
Inductive op : Type :=
| OpAdd | OpDone | OpWaitLock | OpWaitCanceled | OpWaitRecv | OpExpire.

(** [None]: the step cannot be taken in this state, or it panics. *)
Definition step (o : op) (de : IdleCounter) : option IdleCounter :=
  match o with
  | OpAdd => Some (Add de)
  | OpDone =>
      match Done de with
      | Returned de1 => Some de1
      | Panicked _ _ => None
      end
  | OpWaitLock => Some (Wait_lock de)
  | OpWaitCanceled => Some (Wait_canceled de)
  | OpWaitRecv =>
      if C (tmr de) then Some (set_tmr de (Timer_recv (tmr de))) else None
  | OpExpire =>
      if active (tmr de) then Some (set_tmr de (Timer_expire (tmr de)))
      else None
  end.

Fixpoint steps (os : list op) (de : IdleCounter) : option IdleCounter :=
  match os with
  | [] => Some de
  | o :: rest =>
      match step o de with
      | Some de1 => steps rest de1
      | None => None
      end
  end.

(** The states a counter made by [NewIdleCounter d] can be in. *)
Definition reachable (d : Duration) (de : IdleCounter) : Prop :=
  exists os : list op, steps os (NewIdleCounter d) = Some de.

(** The quiet timer is armed: it is running. *)
Definition armed (de : IdleCounter) : bool := active (tmr de).

(** The timer runs only while no job is counted. *)
Definition armed_at_zero (de : IdleCounter) : Prop :=
  armed de = true -> job de = 0.

(** ** Retry *)

(** [func() (stop bool, err error)], a closure over a state [A]. *)
Definition Action (A : Type) : Type := A -> bool * option error * A.

(** [fuel] bounds the number of iterations of the [for] loop; [None] when
    it runs out before the loop returns. *)
Fixpoint Retry {A S : Type} (fuel : nat)
  (ctx : Context) (s : Sleeper S) (fn : Action A) (a : A) (st : S)
  : option (option error * A * S) :=
  match fuel with
  | O => None
  | Datatypes.S fuel =>
      let '(stop, err, a1) := fn a in
      if stop then Some (err, a1, st)
      else
        let (err, st1) := s ctx st in
        match err with
        | Some e => Some (Some e, a1, st1)
        | None => Retry fuel ctx s fn a1 st1
        end
  end.

(** Call counters, as a test would wrap them around a closure. *)
Definition counted_action {A : Type} (fn : Action A) : Action (A * nat) :=
  fun '(a, n) => let '(stop, err, a1) := fn a in (stop, err, (a1, Datatypes.S n)).

Definition counted_sleeper {S : Type} (s : Sleeper S) : Sleeper (S * nat) :=
  fun ctx '(st, n) => let (err, st1) := s ctx st in (err, (st1, Datatypes.S n)).

(** An action that asks to go on twice and then stops without an error;
    its state is the number of calls made so far. *)
Definition stop_on_third : Action nat :=
  fun n => ((2 <=? n)%nat, None, Datatypes.S n).

(** A random source that draws [r] every time. *)
Definition draw_const (r : float) : Rand unit := fun _ => (r, tt).

(** At a draw of [0.5], [DefaultBackoff] scales by exactly [2]. *)
Definition draw_half : Rand unit := draw_const 0.5%float.

(** The ends of [mr.Float64]'s range [[0, 1)]: 0, and the last binary64
    value below 1. *)
Definition draw_least : Rand unit := draw_const 0%float.
Definition draw_most : Rand unit := draw_const 0x1.fffffffffffffp-1%float.

(** A custom algorithm: doubling, capped at [cap]. *)
Definition double_up_to (cap : Duration) : Algorithm unit :=
  fun d _ => (Z.min (2 * d) cap, tt).

(** The three properties of the waited intervals, as one predicate:
    non-decreasing, bounded by [maxInterval], constant from the first one
    that equals [maxInterval]. *)
Definition monotone_capped (maxInterval : Duration) (l : list Duration)
  : Prop :=
  (forall l1 d1 d2 l2, l = l1 ++ d1 :: d2 :: l2 -> d1 <= d2)
  /\ Forall (fun d => d <= maxInterval) l
  /\ (forall l1 d l2, l = l1 ++ d :: l2 -> d = maxInterval ->
      Forall (eq maxInterval) l2).

(** The intervals waited over a run of calls. *)
Definition intervals {W : Type}
  (cs : list (Context * selected)) (c : BackoffSleeperClosure W) (w : W)
  : list Duration :=
  waited (fst (fst (BackoffSleeper_calls cs c w))).

(** The closure as a run of calls leaves it. *)
Definition closure_after {W : Type}
  (cs : list (Context * selected)) (c : BackoffSleeperClosure W) (w : W)
  : BackoffSleeperClosure W :=
  snd (fst (BackoffSleeper_calls cs c w)).

(** The closure runs algorithm [alg] under the cap [cap], from a stored
    interval that is not negative. *)
Definition runs_with {W : Type} (alg : Algorithm W) (cap : Duration)
  (c : BackoffSleeperClosure W) : Prop :=
  algorithm c = alg /\ maxInterval c = cap /\ 0 <= init c.

(** Every token of the run is one that is never canceled. *)
Definition live (cs : list (Context * selected)) : Prop :=
  Forall (fun x => never_canceled (fst x)) cs.

(** A wait whose result has type [R] hands the token's error to its
    caller: there is a way to read the error off the result. *)
Definition hands_over {R : Type} (wait : Context -> R) : Prop :=
  exists recv : R -> option error,
    forall ctx e, Err ctx = Some e -> recv (wait ctx) = Some e.

(** ** EscapeGoString *)

Definition backquote : ascii := Ascii.ascii_of_nat 96.
Definition dquote : ascii := Ascii.ascii_of_nat 34.
Definition carriage_return : ascii := Ascii.ascii_of_nat 13.
Definition backslash : ascii := Ascii.ascii_of_nat 92.
Definition newline : ascii := Ascii.ascii_of_nat 10.

(** [strings.ReplaceAll(s, old, new)] for an [old] of one byte: every
    occurrence is replaced, from left to right. *)
Fixpoint ReplaceAll (s : string) (old : ascii) (new : string) : string :=
  match s with
  | EmptyString => EmptyString
  | String a rest =>
      if Ascii.eqb a old
      then (new ++ ReplaceAll rest old new)%string
      else String a (ReplaceAll rest old new)
  end.

(** The replacement text of [EscapeGoString]: a back quote, [ + ], a back
    quote between double quotes, [ + ], a back quote. *)
Definition quoted_backquote : string :=
  ("` + " ++ String dquote ("`" ++ String dquote " + `"))%string.

Definition EscapeGoString (s : string) : string :=
  ("`" ++ ReplaceAll s backquote quoted_backquote ++ "`")%string.

(** What the Go language makes of the text [EscapeGoString] produces: the
    value of an expression [lit + lit + ... + lit], where each [lit] is a
    raw string literal (between back quotes) or an interpreted string
    literal without escapes (between double quotes).  The scanner is a
    state machine over the text; [None] for any other text.  Go discards
    carriage returns from the value of a raw string literal; [keep_cr]
    switches that off. *)
Inductive scan : Type :=
| Operand | InRaw | InInterpreted | AfterOperand | AfterSpace | AfterPlus.

Fixpoint literal_value (keep_cr : bool) (m : scan) (src : string)
  : option string :=
  match src with
  | EmptyString =>
      match m with
      | AfterOperand => Some EmptyString
      | _ => None
      end
  | String a rest =>
      match m with
      | Operand =>
          if Ascii.eqb a backquote then literal_value keep_cr InRaw rest
          else if Ascii.eqb a dquote
               then literal_value keep_cr InInterpreted rest
               else None
      | InRaw =>
          if Ascii.eqb a backquote
          then literal_value keep_cr AfterOperand rest
          else if Ascii.eqb a carriage_return && negb keep_cr
               then literal_value keep_cr InRaw rest
               else option_map (String a) (literal_value keep_cr InRaw rest)
      | InInterpreted =>
          if Ascii.eqb a dquote
          then literal_value keep_cr AfterOperand rest
          else if Ascii.eqb a backslash || Ascii.eqb a newline
               then None
               else option_map (String a)
                      (literal_value keep_cr InInterpreted rest)
      | AfterOperand =>
          if Ascii.eqb a " "%char then literal_value keep_cr AfterSpace rest
          else None
      | AfterSpace =>
          if Ascii.eqb a "+"%char then literal_value keep_cr AfterPlus rest
          else None
      | AfterPlus =>
          if Ascii.eqb a " "%char then literal_value keep_cr Operand rest
          else None
      end
  end.

(** The value of the expression as Go computes it. *)
Definition go_value (src : string) : option string :=
  literal_value false Operand src.

(** [s] without its carriage returns. *)
Fixpoint without_cr (s : string) : string :=
  match s with
  | EmptyString => EmptyString
  | String a rest =>
      if Ascii.eqb a carriage_return then without_cr rest
      else String a (without_cr rest)
  end.

(** The number of back quotes in [s]. *)
Fixpoint backquotes (s : string) : nat :=
  match s with
  | EmptyString => 0%nat
  | String a rest =>
      if Ascii.eqb a backquote then Datatypes.S (backquotes rest)
      else backquotes rest
  end.

(** ** RandString *)

(** [hex.EncodeToString]: two digits of ["0123456789abcdef"] per byte, the
    high four bits first. *)
Definition hextable : string := "0123456789abcdef".

Definition hex_digit (n : N) : ascii :=
  match String.get (N.to_nat n) hextable with
  | Some a => a
  | None => "0"%char
  end.

Fixpoint EncodeToString (src : list Byte.byte) : string :=
  match src with
  | [] => EmptyString
  | v :: rest =>
      String (hex_digit (N.shiftr (Byte.to_N v) 4))
        (String (hex_digit (N.land (Byte.to_N v) 15))
           (EncodeToString rest))
  end.

(** [make([]byte, len)] followed by [rand.Read(b)], whose error is dropped:
    [read] is what the random source wrote, the bytes it did not reach stay
    zero. *)
Definition filled (len : nat) (read : list Byte.byte) : list Byte.byte :=
  firstn len (read ++ repeat Byte.x00 len).

(** [RandString(len)]; [make] panics on a negative length. *)
Definition RandString (len : int) (read : list Byte.byte) : outcome string :=
  if len <? 0
  then Panicked "makeslice: len out of range" EmptyString
  else Returned (EncodeToString (filled (Z.to_nat len) read)).

(** Every byte of [s] is a lower-case hexadecimal digit. *)
Fixpoint all_hex (s : string) : bool :=
  match s with
  | EmptyString => true
  | String a rest =>
      (existsb (Ascii.eqb a) (list_ascii_of_string hextable)) && all_hex rest
  end.

(** ** E *)

(** An [interface{}] value, as far as [E] and the loggers look at it: nil,
    a value whose type implements [error], or some other value. *)
Inductive any (V : Type) : Type :=
| AnyNil
| AnyError (e : error)
| AnyValue (v : V).
Arguments AnyNil {V}.
Arguments AnyError {V} _.
Arguments AnyValue {V} _.

(** How a call of [E] ends: it returns, it panics with the error it was
    given, or the runtime panics. *)
Inductive escape (A : Type) : Type :=
| Passed (a : A)
| PanicWith (e : error)
| RuntimePanic (msg : string).
Arguments Passed {A} _.
Arguments PanicWith {A} _.
Arguments RuntimePanic {A} _.

(** [args[i]] with Go's bounds check. *)
Definition index {A : Type} (l : list A) (i : Z) : option A :=
  if (0 <=? i) && (i <? Z.of_nat (List.length l))
  then nth_error l (Z.to_nat i)
  else None.

Definition E {V : Type} (args : list (any V)) : escape (list (any V)) :=
  match index args (Z.of_nat (List.length args) - 1) with
  | None => RuntimePanic "index out of range [-1]"
  | Some (AnyError err) => PanicWith err
  | Some _ => Passed args
  end.

Definition is_error {V : Type} (v : any V) : bool :=
  match v with
  | AnyError _ => true
  | _ => false
  end.

(** ** Loggers *)

(** [Logger]: something with [Println(...interface{})], an effect on the
    state [L] of whatever the loggers write to. *)
Definition Logger (V L : Type) : Type := list (any V) -> L -> L.

(** [type Log func(msg ...interface{})]; its [Println] calls the
    function. *)
Definition Log_Println {V L : Type} (l : Logger V L) : Logger V L :=
  fun msg => l msg.

Definition LoggerQuiet {V L : Type} : Logger V L := fun _ w => w.

Definition MultiLogger {V L : Type} (list : list (Logger V L)) : Logger V L :=
  fun msg w => fold_left (fun w lg => lg msg w) list w.

(** A logger that writes its name and the message to a shared
    transcript. *)
Definition transcribe {V : Type} (name : nat)
  : Logger V (list (nat * list (any V))) :=
  fun msg w => w ++ [(name, msg)].

(** What a raw string literal keeps of [s]. *)
Definition kept (keep_cr : bool) (s : string) : string :=
  if keep_cr then s else without_cr s.

(** [s] has a carriage return. *)
Fixpoint has_cr (s : string) : bool :=
  match s with
  | EmptyString => false
  | String a rest => Ascii.eqb a carriage_return || has_cr rest
  end.

(** ** Sleepers and Retry together *)

(** The number of calls of a run that returned nil. *)
Definition wakes (rs : list (option error)) : nat :=
  List.length (filter (fun r => match r with None => true | Some _ => false end)
                 rs).

(** What a count-bounded sleeper whose budget is spent answers. *)
Definition spent_answer (ctx : Context) : option error :=
  match Err ctx with
  | Some e => Some e
  | None => Some (errorString "max sleep count")
  end.

(** A backoff sleeper as a [Sleeper]: its state is the closure and the
    state [W] its algorithm works on; [ready] is the runtime's choice in
    every call. *)
Definition BackoffSleeper_sleeper {W : Type} (ready : selected)
  : Sleeper (BackoffSleeperClosure W * W) :=
  fun ctx '(c, w) =>
    let '(k, c1, w1) := BackoffSleeper_call ctx ready c w in
    (ret k, (c1, w1)).

(** The action asks to go on, whatever its state. *)
Definition never_stops {A : Type} (fn : Action A) : Prop :=
  forall a, fst (fst (fn a)) = false.

(** The call is one that its timer ends. *)
Definition timer_wins (x : Context * selected) : bool :=
  match Err (fst x), snd x with
  | Some _, CtxDone => false
  | _, _ => true
  end.

(** An action that never stops and counts its calls. *)
Definition go_on : Action nat := fun n => (false, None, Datatypes.S n).

(** The scale [DefaultBackoff] multiplies by at a draw of [r]. *)
Definition backoff_scale (r : float) : float :=
  (2 + (r - 0.5) * 0x1.999999999999ap-3)%float.

(** The float is a number: not NaN, not infinite. *)
Definition finite_float (f : float) : bool :=
  match Prim2SF f with
  | S754_zero _ | S754_finite _ _ _ => true
  | _ => false
  end.

(** The numbers of [Add] and of [Done] steps in a trace. *)
Definition adds (os : list op) : nat :=
  List.length (filter (fun o => match o with OpAdd => true | _ => false end)
                 os).

Definition dones (os : list op) : nat :=
  List.length (filter (fun o => match o with OpDone => true | _ => false end)
                 os).

(** ** Facts: CountSleeper *)


Lemma wrap64_id (x : Z) : MinInt64 <= x <= MaxInt64 -> wrap64 x = x.
Proof.
  unfold wrap64, MinInt64, MaxInt64. intros H.
  rewrite Z.mod_small; lia.
Qed.

Lemma CountSleeper_call_live (ctx : Context) (c : CountSleeperClosure) :
  never_canceled ctx -> 0 <= count c < max c -> max c <= MaxInt64 ->
  CountSleeper_call ctx c = (None, {| max := max c; count := count c + 1 |}).
Proof.
  unfold never_canceled, CountSleeper_call. intros -> Hc Hm.
  destruct (Z.eqb_spec (count c) (max c)) as [E | _]; [lia |].
  rewrite wrap64_id; [reflexivity | unfold MinInt64, MaxInt64 in *; lia].
Qed.

Lemma CountSleeper_call_spent (ctx : Context) (c : CountSleeperClosure) :
  never_canceled ctx -> count c = max c ->
  CountSleeper_call ctx c = (Some (errorString "max sleep count"), c).
Proof.
  unfold never_canceled, CountSleeper_call. intros -> ->.
  rewrite Z.eqb_refl. reflexivity.
Qed.

(** With [k] calls left in the budget, [k] calls wake and the next fails. *)
Lemma CountSleeper_budget (k : nat) :
  forall (ctxs : list Context) (c : CountSleeperClosure),
    Forall never_canceled ctxs ->
    List.length ctxs = S k ->
    0 <= count c -> count c + Z.of_nat k = max c -> max c <= MaxInt64 ->
    calls CountSleeper_call ctxs c
    = (repeat None k ++ [Some (errorString "max sleep count")],
       {| max := max c; count := max c |}).
Proof.
  induction k as [| k IH]; intros ctxs c Hlive Hlen Hc Hk Hm.
  - destruct ctxs as [| ctx [| ? ?]]; try discriminate Hlen.
    inversion Hlive as [| ? ? Hctx _]; subst.
    cbn [calls repeat app].
    rewrite CountSleeper_call_spent by (assumption || lia).
    destruct c as [m n]; cbn in *. f_equal. f_equal. lia.
  - destruct ctxs as [| ctx rest]; [discriminate Hlen |].
    inversion Hlive as [| ? ? Hctx Hrest]; subst.
    cbn [calls repeat app].
    rewrite CountSleeper_call_live by (assumption || lia).
    rewrite (IH rest); cbn [max count]; try (assumption || lia).
    + reflexivity.
    + cbn in Hlen. lia.
Qed.

(** C3: for every [n >= 0], a count-bounded sleeper built with [max = n] and
    called [n + 1] times with tokens that are never canceled returns nil on
    each of the first [n] calls and the error "max sleep count" on call
    [n + 1]. *)
Theorem CountSleeper_exhausts (n : int) (ctxs : list Context) :
  0 <= n <= MaxInt64 ->
  Forall never_canceled ctxs ->
  List.length ctxs = S (Z.to_nat n) ->
  fst (calls CountSleeper_call ctxs (CountSleeper n))
  = repeat None (Z.to_nat n) ++ [Some (errorString "max sleep count")].
Proof.
  intros Hn Hlive Hlen.
  rewrite (CountSleeper_budget (Z.to_nat n)); cbn [CountSleeper max count fst];
    try (assumption || lia).
  reflexivity.
Qed.

Lemma CountSleeper_exhausts_witness :
  fst (calls CountSleeper_call [Background; Background; Background]
         (CountSleeper 2))
  = [None; None; Some (errorString "max sleep count")].
Proof.
  apply (CountSleeper_exhausts 2 [Background; Background; Background]).
  - unfold MaxInt64. lia.
  - repeat constructor.
  - reflexivity.
Defined.

Lemma CountSleeper_call_canceled
  (ctx : Context) (e : error) (c : CountSleeperClosure) :
  Err ctx = Some e -> CountSleeper_call ctx c = (Some e, c).
Proof.
  intros He. unfold CountSleeper_call. rewrite He. reflexivity.
Qed.

(** C10: called with a token that is already canceled, a count-bounded
    sleeper returns the token's error and leaves its count as it was, also
    when the count has reached [max]: the token is checked before the
    budget. *)
Theorem CountSleeper_canceled_first
  (ctx : Context) (e : error) (c : CountSleeperClosure) :
  Err ctx = Some e ->
  fst (CountSleeper_call ctx c) = Some e
  /\ count (snd (CountSleeper_call ctx c)) = count c
  /\ snd (CountSleeper_call ctx c) = c.
Proof.
  intros He. rewrite (CountSleeper_call_canceled ctx e c He). auto.
Qed.

Lemma CountSleeper_canceled_first_witness :
  let ctx := {| Err := Some Canceled |} in
  let c := {| max := 3; count := 3 |} in
  fst (CountSleeper_call ctx c) = Some Canceled
  /\ count (snd (CountSleeper_call ctx c)) = 3
  /\ snd (CountSleeper_call ctx c) = c.
Proof.
  apply (CountSleeper_canceled_first {| Err := Some Canceled |} Canceled
           {| max := 3; count := 3 |}).
  reflexivity.
Defined.

(** ** Facts: BackoffSleeper *)

Section BackoffFacts.

Context {W : Type}.
Implicit Types (c : BackoffSleeperClosure W) (w : W).

(** A call that the token cannot end waits for [interval_of] and stores
    it. *)
Lemma BackoffSleeper_call_live ctx ready c w :
  never_canceled ctx -> 0 < maxInterval c ->
  BackoffSleeper_call ctx ready c w
  = ({| ret := None; timer := Some (fst (interval_of c w)) |},
     set_init c (fst (interval_of c w)), snd (interval_of c w)).
Proof.
  unfold never_canceled, BackoffSleeper_call. intros Hctx Hmax.
  destruct (Z.leb_spec (maxInterval c) 0) as [Hle | _]; [lia |].
  destruct (interval_of c w) as [d w1]. rewrite Hctx. reflexivity.
Qed.

Lemma intervals_cons ctx ready cs c w :
  never_canceled ctx -> 0 < maxInterval c ->
  intervals ((ctx, ready) :: cs) c w
  = fst (interval_of c w)
      :: intervals cs (set_init c (fst (interval_of c w)))
           (snd (interval_of c w)).
Proof.
  intros Hctx Hmax. unfold intervals. cbn [BackoffSleeper_calls].
  rewrite BackoffSleeper_call_live by assumption.
  destruct (BackoffSleeper_calls cs _ _) as [[ks c2] w2].
  reflexivity.
Qed.

Lemma interval_of_capped c w :
  maxInterval c <= init c -> interval_of c w = (maxInterval c, w).
Proof.
  unfold interval_of. intros H.
  destruct (Z.ltb_spec (init c) (maxInterval c)); [lia | reflexivity].
Qed.

Lemma interval_of_below c w :
  init c < maxInterval c -> interval_of c w = algorithm c (init c) w.
Proof.
  unfold interval_of. intros H.
  destruct (Z.ltb_spec (init c) (maxInterval c)); [reflexivity | lia].
Qed.

(** Once the stored interval has reached [maxInterval], every wait lasts
    [maxInterval]. *)
Lemma intervals_capped cs :
  forall c w,
    live cs -> 0 < maxInterval c -> maxInterval c <= init c ->
    Forall (eq (maxInterval c)) (intervals cs c w).
Proof.
  induction cs as [| [ctx ready] cs IH]; intros c w Hlive Hmax Hcap.
  - constructor.
  - inversion Hlive as [| ? ? Hctx Hrest]; subst. cbn [fst] in Hctx.
    rewrite intervals_cons by assumption.
    rewrite interval_of_capped by assumption. cbn [fst snd].
    constructor; [reflexivity |].
    apply (IH (set_init c (maxInterval c)) w); cbn; (assumption || lia).
Qed.

Section Growing.

Variable alg : Algorithm W.
Variable cap : Duration.
Hypothesis cap_pos : 0 < cap.
Hypothesis alg_grows : forall d w, 0 <= d < cap -> d <= fst (alg d w).

Local Abbreviation good := (runs_with alg cap).

Lemma interval_of_grows c w :
  good c -> init c <= cap -> init c <= fst (interval_of c w).
Proof.
  intros (Ha & Hm & H0) Hle.
  destruct (Z.lt_ge_cases (init c) (maxInterval c)) as [Hlt | Hge].
  - rewrite interval_of_below by assumption. rewrite Ha.
    apply alg_grows. lia.
  - rewrite interval_of_capped by assumption. cbn. lia.
Qed.

Lemma interval_of_nonneg c w : good c -> 0 <= fst (interval_of c w).
Proof.
  intros (Ha & Hm & H0).
  destruct (Z.lt_ge_cases (init c) (maxInterval c)) as [Hlt | Hge].
  - rewrite interval_of_below by assumption. rewrite Ha.
    specialize (alg_grows (init c) w). lia.
  - rewrite interval_of_capped by assumption. cbn. lia.
Qed.

Lemma good_set_init c w : good c -> good (set_init c (fst (interval_of c w))).
Proof.
  intros Hg. pose proof (interval_of_nonneg c w Hg) as Hn.
  destruct Hg as (Ha & Hm & H0). repeat split; cbn; assumption.
Qed.

(** Below or at the cap, the next interval is no shorter. *)
Lemma intervals_step_up l1 :
  forall cs c w d1 d2 l2,
    live cs -> good c ->
    intervals cs c w = l1 ++ d1 :: d2 :: l2 ->
    d1 <= cap -> d1 <= d2.
Proof.
  induction l1 as [| x l1 IH]; intros cs c w d1 d2 l2 Hlive Hg Heq Hd1;
    destruct cs as [| [ctx ready] cs]; try discriminate Heq;
    pose proof (Forall_inv Hlive) as Hctx; cbn [fst] in Hctx;
    pose proof (Forall_inv_tail Hlive) as Hrest;
    pose proof Hg as (Ha & Hm & H0);
    rewrite intervals_cons in Heq by (assumption || lia);
    cbn [app] in Heq; injection Heq as Hx Hrest'.
  - destruct cs as [| [ctx2 ready2] cs]; [discriminate Hrest' |].
    pose proof (Forall_inv Hrest) as Hctx2. cbn [fst] in Hctx2.
    pose proof (good_set_init c w Hg) as Hg1.
    rewrite intervals_cons in Hrest' by (cbn; assumption || lia).
    injection Hrest' as Hd2 _. rewrite <- Hd2, <- Hx.
    apply (interval_of_grows _ _ Hg1). cbn. lia.
  - eapply IH; [exact Hrest | | exact Hrest' | exact Hd1].
    apply good_set_init. assumption.
Qed.

(** From the first interval that reaches the cap on, every interval is the
    cap. *)
Lemma intervals_stay l1 :
  forall cs c w d l2,
    live cs -> good c ->
    intervals cs c w = l1 ++ d :: l2 ->
    cap <= d -> Forall (eq cap) l2.
Proof.
  induction l1 as [| x l1 IH]; intros cs c w d l2 Hlive Hg Heq Hd;
    destruct cs as [| [ctx ready] cs]; try discriminate Heq;
    pose proof (Forall_inv Hlive) as Hctx; cbn [fst] in Hctx;
    pose proof (Forall_inv_tail Hlive) as Hrest;
    pose proof Hg as (Ha & Hm & H0);
    rewrite intervals_cons in Heq by (assumption || lia);
    cbn [app] in Heq; injection Heq as Hx Hrest'.
  - rewrite <- Hrest', <- Hm.
    change (maxInterval c)
      with (maxInterval (set_init c (fst (interval_of c w)))).
    apply intervals_capped; cbn; try (assumption || lia).
  - eapply IH; [exact Hrest | | exact Hrest' | exact Hd].
    apply good_set_init. assumption.
Qed.

Lemma intervals_length cs :
  forall c w, live cs -> good c ->
    List.length (intervals cs c w) = List.length cs.
Proof.
  induction cs as [| [ctx ready] cs IH]; intros c w Hlive Hg.
  - reflexivity.
  - pose proof (Forall_inv Hlive) as Hctx. cbn [fst] in Hctx.
    pose proof (Forall_inv_tail Hlive) as Hrest.
    pose proof Hg as (Ha & Hm & H0).
    rewrite intervals_cons by (assumption || lia). cbn [List.length].
    f_equal. apply IH; [assumption | apply good_set_init; assumption].
Qed.

End Growing.

End BackoffFacts.


Lemma DefaultBackoff_half_grows (d : Z) (u : unit) :
  0 <= d < 4 -> d <= fst (DefaultBackoff draw_half d u).
Proof.
  intros Hd.
  assert (Hcases : d = 0 \/ d = 1 \/ d = 2 \/ d = 3) by lia.
  destruct Hcases as [-> | [-> | [-> | ->]]]; vm_compute; discriminate.
Defined.


(** The default algorithm shortens a negative interval, so the stored
    interval has to start at 0 or more for the intervals to grow. *)
Lemma backoff_intervals_negative_init :
  intervals (repeat (Background, TimerC) 2)
    (BackoffSleeper draw_half (-1) 4 None) tt = [-2; -4].
Proof. vm_compute. reflexivity. Qed.

(** The overshoot does not hang on the draw: at either end of the range
    of draws the fourth wait from 100ms under a maximum of 1s is longer
    than 1s, and the fifth lasts 1s. *)
Lemma backoff_overshoot_at_extreme_draws :
  intervals (repeat (Background, TimerC) 5)
    (BackoffSleeper draw_least (100 * Millisecond) Second None) tt
  = [190000000; 361000000; 685900000; 1303210000; 1000000000]
  /\ intervals (repeat (Background, TimerC) 5)
       (BackoffSleeper draw_most (100 * Millisecond) Second None) tt
     = [210000000; 441000000; 926100000; 1944810000; 1000000000].
Proof. split; vm_compute; reflexivity. Qed.


(** A call changes nothing of the closure but [init]. *)
Lemma BackoffSleeper_call_frame {W : Type}
  ctx ready (c : BackoffSleeperClosure W) (w : W) :
  let c1 := snd (fst (BackoffSleeper_call ctx ready c w)) in
  maxInterval c1 = maxInterval c /\ algorithm c1 = algorithm c
  /\ (init c1 = init c \/ init c1 = fst (interval_of c w)).
Proof.
  unfold BackoffSleeper_call.
  destruct (maxInterval c <=? 0); [cbn; auto |].
  destruct (interval_of c w) as [d w1].
  destruct (Err ctx) as [e |], ready; cbn; auto.
Qed.

(** The duration a call gives to its timer is [interval_of]. *)
Lemma BackoffSleeper_call_timer {W : Type}
  ctx ready (c : BackoffSleeperClosure W) (w : W) (d : Duration) :
  timer (fst (fst (BackoffSleeper_call ctx ready c w))) = Some d ->
  d = fst (interval_of c w).
Proof.
  unfold BackoffSleeper_call.
  destruct (maxInterval c <=? 0); [discriminate |].
  destruct (interval_of c w) as [d1 w1].
  destruct (Err ctx) as [e |], ready; cbn; congruence.
Qed.

Lemma interval_of_bounded {W : Type} (c : BackoffSleeperClosure W) (w : W) :
  (forall d w0, d < maxInterval c ->
                fst (algorithm c d w0) <= maxInterval c) ->
  fst (interval_of c w) <= maxInterval c.
Proof.
  intros Hb. unfold interval_of.
  destruct (Z.ltb_spec (init c) (maxInterval c)) as [Hlt | Hge].
  - apply Hb. assumption.
  - cbn. lia.
Qed.

(** A wait that the timer ends, entered with the stored interval at or
    above [maxInterval], stores [maxInterval] itself. *)
Lemma BackoffSleeper_call_resets {W : Type}
  ctx ready (c : BackoffSleeperClosure W) (w : W) :
  0 < maxInterval c -> maxInterval c <= init c ->
  ret (fst (fst (BackoffSleeper_call ctx ready c w))) = None ->
  init (snd (fst (BackoffSleeper_call ctx ready c w))) = maxInterval c.
Proof.
  unfold BackoffSleeper_call. intros Hmax Hge.
  destruct (Z.leb_spec (maxInterval c) 0); [lia |].
  rewrite interval_of_capped by assumption.
  destruct (Err ctx) as [e |], ready; cbn; (discriminate || reflexivity).
Qed.




(** C8: when the token ends a backoff sleeper's wait, the call returns the
    token's error and the closure, the stored interval with it, is what it
    was before the call.  (The algorithm has been called by then; what it
    did to its own state [W] stays.) *)
Theorem backoff_cancel_keeps_init {W : Type}
  (ctx : Context) (e : error) (c : BackoffSleeperClosure W) (w : W) :
  0 < maxInterval c -> Err ctx = Some e ->
  ret (fst (fst (BackoffSleeper_call ctx CtxDone c w))) = Some e
  /\ snd (fst (BackoffSleeper_call ctx CtxDone c w)) = c
  /\ init (snd (fst (BackoffSleeper_call ctx CtxDone c w))) = init c.
Proof.
  intros Hmax He. unfold BackoffSleeper_call.
  destruct (Z.leb_spec (maxInterval c) 0); [lia |].
  destruct (interval_of c w) as [d w1]. rewrite He. cbn. auto.
Qed.

Lemma backoff_cancel_keeps_init_witness :
  let c := BackoffSleeper draw_half 3 4 None in
  let r := BackoffSleeper_call {| Err := Some Canceled |} CtxDone c tt in
  ret (fst (fst r)) = Some Canceled /\ snd (fst r) = c
  /\ init (snd (fst r)) = 3.
Proof.
  apply (backoff_cancel_keeps_init {| Err := Some Canceled |} Canceled
           (BackoffSleeper draw_half 3 4 None) tt).
  - reflexivity.
  - reflexivity.
Defined.

(** C9: a backoff sleeper built with [maxInterval <= 0] returns nil from
    every call of every run, whatever the tokens (canceled or not) and the
    runtime's choices; it makes no timer, calls no algorithm and keeps its
    state. *)
Theorem backoff_nonpositive_max_wakes {W : Type} (Float64 : Rand W)
  (init0 maxInterval0 : Duration) (alg : option (Algorithm W))
  (cs : list (Context * selected)) (w : W) :
  maxInterval0 <= 0 ->
  BackoffSleeper_calls cs (BackoffSleeper Float64 init0 maxInterval0 alg) w
  = (map (fun _ => {| ret := None; timer := None |}) cs,
     BackoffSleeper Float64 init0 maxInterval0 alg, w).
Proof.
  intros Hmax. induction cs as [| [ctx ready] cs IH]; [reflexivity |].
  cbn [BackoffSleeper_calls map]. unfold BackoffSleeper_call at 1.
  cbn [BackoffSleeper maxInterval].
  destruct (Z.leb_spec maxInterval0 0); [| lia].
  fold (BackoffSleeper Float64 init0 maxInterval0 alg). rewrite IH.
  reflexivity.
Qed.

Lemma backoff_nonpositive_max_wakes_witness :
  BackoffSleeper_calls
    [({| Err := Some Canceled |}, CtxDone); (Background, TimerC)]
    (BackoffSleeper draw_half 5 0 None) tt
  = ([{| ret := None; timer := None |}; {| ret := None; timer := None |}],
     BackoffSleeper draw_half 5 0 None, tt).
Proof.
  apply (backoff_nonpositive_max_wakes draw_half 5 0 None
           [({| Err := Some Canceled |}, CtxDone); (Background, TimerC)] tt).
  discriminate.
Defined.

(** ** Facts: IdleCounter *)

(** C5: [Done] on a counter whose job count is zero panics ("all jobs are
    already done"); it does not return. *)
Theorem Done_without_Add_panics (de : IdleCounter) :
  job de = 0 ->
  Done de
  = Panicked "all jobs are already done" (set_job de (-1)).
Proof.
  intros Hjob. unfold Done. rewrite Hjob. reflexivity.
Qed.

Lemma Done_without_Add_panics_witness :
  Done (NewIdleCounter 5)
  = Panicked "all jobs are already done" (set_job (NewIdleCounter 5) (-1)).
Proof.
  apply (Done_without_Add_panics (NewIdleCounter 5)). reflexivity.
Defined.

(** Every step that does not panic keeps [armed_at_zero]. *)
Lemma step_armed_at_zero (o : op) (de de1 : IdleCounter) :
  armed_at_zero de -> step o de = Some de1 -> armed_at_zero de1.
Proof.
  unfold armed_at_zero, armed. intros Hinv Hstep.
  destruct o; cbn [step] in Hstep.
  - injection Hstep as <-. cbn. discriminate.
  - unfold Done in Hstep. cbn [set_job job tmr duration] in Hstep.
    destruct (Z.eqb_spec (wrap64 (job de - 1)) 0) as [E0 | N0];
      cbn [set_tmr set_job job tmr] in Hstep.
    + rewrite E0 in Hstep. cbn in Hstep. injection Hstep as <-.
      intros _. reflexivity.
    + destruct (Z.ltb_spec (wrap64 (job de - 1)) 0) as [Hneg | Hpos];
        [discriminate Hstep |].
      injection Hstep as <-. cbn. intros Ha.
      specialize (Hinv Ha). rewrite Hinv in Hpos.
      vm_compute in Hpos. contradiction Hpos. reflexivity.
  - injection Hstep as <-. unfold Wait_lock.
    destruct (Z.eqb_spec (job de) 0) as [E0 | N0]; cbn; auto.
  - injection Hstep as <-. cbn. discriminate.
  - destruct (C (tmr de)); [| discriminate Hstep].
    injection Hstep as <-. cbn. assumption.
  - destruct (active (tmr de)); [| discriminate Hstep].
    injection Hstep as <-. cbn. discriminate.
Qed.

Lemma steps_armed_at_zero (os : list op) :
  forall de de1 : IdleCounter,
    armed_at_zero de -> steps os de = Some de1 -> armed_at_zero de1.
Proof.
  induction os as [| o os IH]; intros de de1 Hinv Hrun; cbn [steps] in Hrun.
  - injection Hrun as <-. assumption.
  - destruct (step o de) as [de2 |] eqn:Hstep; [| discriminate Hrun].
    apply (IH de2 de1); [| assumption].
    apply (step_armed_at_zero o de de2); assumption.
Qed.




(** ** Facts: cancellation *)

(** C6, as the code has it: both sleepers return the token's own error,
    unchanged, when the token ends the wait.  [IdleCounter.Wait] has no
    result: when the token ends it, it stops the timer and returns, and
    what it leaves behind does not depend on the token's error. *)
Theorem cancellation_verbatim_in_sleepers {W : Type}
  (ctx : Context) (e : error) (cc : CountSleeperClosure)
  (bc : BackoffSleeperClosure W) (w : W) (de : IdleCounter) :
  Err ctx = Some e ->
  fst (CountSleeper_call ctx cc) = Some e
  /\ (0 < maxInterval bc ->
      ret (fst (fst (BackoffSleeper_call ctx CtxDone bc w))) = Some e)
  /\ Wait ctx CtxDone de = Some (Wait_canceled (Wait_lock de))
  /\ armed (Wait_canceled (Wait_lock de)) = false.
Proof.
  intros He. split; [| split; [| split]].
  - rewrite (CountSleeper_call_canceled ctx e cc He). reflexivity.
  - intros Hmax. unfold BackoffSleeper_call.
    destruct (Z.leb_spec (maxInterval bc) 0); [lia |].
    destruct (interval_of bc w) as [d w1]. rewrite He. reflexivity.
  - unfold Wait. rewrite He. reflexivity.
  - reflexivity.
Qed.

Lemma cancellation_verbatim_in_sleepers_witness :
  fst (CountSleeper_call {| Err := Some DeadlineExceeded |} (CountSleeper 2))
  = Some DeadlineExceeded
  /\ (0 < 4 ->
      ret (fst (fst (BackoffSleeper_call {| Err := Some DeadlineExceeded |}
                       CtxDone (BackoffSleeper draw_half 3 4 None) tt)))
      = Some DeadlineExceeded)
  /\ Wait {| Err := Some DeadlineExceeded |} CtxDone (NewIdleCounter 5)
     = Some (Wait_canceled (Wait_lock (NewIdleCounter 5)))
  /\ armed (Wait_canceled (Wait_lock (NewIdleCounter 5))) = false.
Proof.
  apply (cancellation_verbatim_in_sleepers
           {| Err := Some DeadlineExceeded |} DeadlineExceeded
           (CountSleeper 2) (BackoffSleeper draw_half 3 4 None) tt
           (NewIdleCounter 5)).
  reflexivity.
Defined.

(** C6 as stated fails for [IdleCounter.Wait]: ended by a token canceled
    with [Canceled] and by one with [DeadlineExceeded], it leaves the same
    thing behind, so the caller cannot get the token's error from it. *)
Lemma Wait_swallows_cancellation :
  Wait {| Err := Some Canceled |} CtxDone (NewIdleCounter 5)
  = Wait {| Err := Some DeadlineExceeded |} CtxDone (NewIdleCounter 5)
  /\ ~ hands_over (fun ctx => Wait ctx CtxDone (NewIdleCounter 5)).
Proof.
  split; [reflexivity |].
  intros [recv H].
  pose proof (H {| Err := Some Canceled |} Canceled eq_refl) as H1.
  pose proof (H {| Err := Some DeadlineExceeded |} DeadlineExceeded eq_refl)
    as H2.
  cbv beta in H1, H2.
  change (Wait {| Err := Some DeadlineExceeded |} CtxDone (NewIdleCounter 5))
    with (Wait {| Err := Some Canceled |} CtxDone (NewIdleCounter 5)) in H2.
  rewrite H1 in H2. discriminate H2.
Qed.

(** ** Facts: Retry *)

Lemma Retry_more_fuel {A S : Type} (fuel : nat) :
  forall ctx (s : Sleeper S) (fn : Action A) a st r,
    Retry fuel ctx s fn a st = Some r ->
    Retry (Datatypes.S fuel) ctx s fn a st = Some r.
Proof.
  induction fuel as [| fuel IH]; intros ctx s fn a st r Hr;
    [discriminate Hr |].
  cbn [Retry] in Hr. change (Retry (Datatypes.S (Datatypes.S fuel)) ctx s fn a st)
    with (let '(stop, err, a1) := fn a in
          if stop then Some (err, a1, st)
          else let (err0, st1) := s ctx st in
               match err0 with
               | Some e => Some (Some e, a1, st1)
               | None => Retry (Datatypes.S fuel) ctx s fn a1 st1
               end).
  destruct (fn a) as [[stop err] a1]. destruct stop; [exact Hr |].
  destruct (s ctx st) as [[e |] st1]; [exact Hr |].
  apply IH. exact Hr.
Qed.

(** [Retry] has two exits only: the action said stop, and its error is the
    result; or the sleeper returned an error, and that error is the
    result. *)
Lemma Retry_exits {A S : Type} (fuel : nat) :
  forall ctx (s : Sleeper S) (fn : Action A) a st r a2 st2,
    Retry fuel ctx s fn a st = Some (r, a2, st2) ->
    (exists a0, fn a0 = (true, r, a2))
    \/ (exists e st0, r = Some e /\ s ctx st0 = (Some e, st2)).
Proof.
  induction fuel as [| fuel IH]; intros ctx s fn a st r a2 st2 Hr;
    [discriminate Hr |].
  cbn [Retry] in Hr.
  destruct (fn a) as [[stop err] a1] eqn:Hfn. destruct stop.
  - injection Hr as <- <- <-. left. exists a. exact Hfn.
  - destruct (s ctx st) as [[e |] st1] eqn:Hs.
    + injection Hr as <- <- <-. right. exists e, st. split; [reflexivity |].
      exact Hs.
    + exact (IH ctx s fn a1 st1 r a2 st2 Hr).
Qed.

(** C4: one iteration of [Retry] calls the action; if it says stop, [Retry]
    returns the action's error as it is and the sleeper is not called; if
    not, the sleeper is called, its error, if any, is returned, and
    otherwise the loop goes on.  With an action that stops on its third
    call and a count-bounded sleeper with [max = 5], under a token that is
    never canceled, [Retry] returns nil after 3 calls of the action and 2
    of the sleeper. *)
Theorem Retry_loop {A S : Type} (fuel : nat)
  (ctx : Context) (s : Sleeper S) (fn : Action A) (a : A) (st : S) :
  (forall err a1,
      fn a = (true, err, a1) ->
      Retry (Datatypes.S fuel) ctx s fn a st = Some (err, a1, st))
  /\ (forall err a1 e st1,
         fn a = (false, err, a1) -> s ctx st = (Some e, st1) ->
         Retry (Datatypes.S fuel) ctx s fn a st = Some (Some e, a1, st1))
  /\ (forall err a1 st1,
         fn a = (false, err, a1) -> s ctx st = (None, st1) ->
         Retry (Datatypes.S fuel) ctx s fn a st = Retry fuel ctx s fn a1 st1)
  /\ (never_canceled ctx ->
      Retry (3 + fuel) ctx (counted_sleeper CountSleeper_call)
        (counted_action stop_on_third) (0%nat, 0%nat) (CountSleeper 5, 0%nat)
      = Some (None, (3%nat, 3%nat), ({| max := 5; count := 2 |}, 2%nat))).
Proof.
  split; [| split; [| split]].
  - intros err a1 Hfn. cbn [Retry]. rewrite Hfn. reflexivity.
  - intros err a1 e st1 Hfn Hs. cbn [Retry]. rewrite Hfn, Hs. reflexivity.
  - intros err a1 st1 Hfn Hs. cbn [Retry]. rewrite Hfn, Hs. reflexivity.
  - intros Hctx. unfold never_canceled in Hctx.
    induction fuel as [| fuel IH].
    + cbn [Nat.add Retry counted_action counted_sleeper stop_on_third
           CountSleeper_call CountSleeper max count Nat.leb].
      unfold CountSleeper_call at 1. rewrite Hctx. cbn.
      unfold CountSleeper_call. rewrite Hctx. reflexivity.
    + apply (Retry_more_fuel (3 + fuel)). exact IH.
Qed.

Lemma Retry_loop_witness :
  Retry 3 Background (counted_sleeper CountSleeper_call)
    (counted_action stop_on_third) (0%nat, 0%nat) (CountSleeper 5, 0%nat)
  = Some (None, (3%nat, 3%nat), ({| max := 5; count := 2 |}, 2%nat)).
Proof.
  apply (Retry_loop 0 Background (counted_sleeper CountSleeper_call)
           (counted_action stop_on_third) (0%nat, 0%nat)
           (CountSleeper 5, 0%nat)).
  reflexivity.
Defined.

(** ** Facts: EscapeGoString *)

Lemma option_map_append (a : ascii) (p : string) (o : option string) :
  option_map (String a) (option_map (append p) o)
  = option_map (append (String a p)) o.
Proof. destruct o; reflexivity. Qed.

Lemma kept_cons (keep_cr : bool) (a : ascii) (s : string) :
  kept keep_cr (String a s)
  = if Ascii.eqb a carriage_return && negb keep_cr
    then kept keep_cr s
    else String a (kept keep_cr s).
Proof.
  unfold kept. destruct keep_cr; cbn [without_cr negb].
  - rewrite andb_false_r. reflexivity.
  - rewrite andb_true_r. reflexivity.
Qed.

(** Scanning the escaped body of [s] inside a raw literal yields what a
    raw literal keeps of [s], and goes on inside a raw literal. *)
Lemma literal_value_escaped (keep_cr : bool) (s rest : string) :
  literal_value keep_cr InRaw
    (ReplaceAll s backquote quoted_backquote ++ rest)
  = option_map (append (kept keep_cr s))
      (literal_value keep_cr InRaw rest).
Proof.
  induction s as [| a s IH].
  - cbn [ReplaceAll append kept].
    replace (kept keep_cr EmptyString) with EmptyString
      by (destruct keep_cr; reflexivity).
    destruct (literal_value keep_cr InRaw rest); reflexivity.
  - cbn [ReplaceAll]. rewrite kept_cons.
    destruct (Ascii.eqb_spec a backquote) as [-> | Hne].
    + change ((quoted_backquote
               ++ ReplaceAll s backquote quoted_backquote) ++ rest)%string
        with (String backquote (String " " (String "+" (String " "
               (String dquote (String backquote (String dquote
               (String " " (String "+" (String " " (String backquote
               (ReplaceAll s backquote quoted_backquote ++ rest))))))))))))
               %string.
      cbn [literal_value].
      change (Ascii.eqb backquote backquote) with true.
      change (Ascii.eqb " " " ") with true.
      change (Ascii.eqb "+" "+") with true.
      change (Ascii.eqb dquote backquote) with false.
      change (Ascii.eqb dquote dquote) with true.
      change (Ascii.eqb backquote dquote) with false.
      change (Ascii.eqb backquote backslash) with false.
      change (Ascii.eqb backquote newline) with false.
      change (Ascii.eqb backquote carriage_return) with false.
      cbn [orb andb]. rewrite IH. apply option_map_append.
    + cbn [append literal_value].
      destruct (Ascii.eqb_spec a backquote) as [Heq | _]; [contradiction |].
      destruct (Ascii.eqb a carriage_return && negb keep_cr).
      * exact IH.
      * rewrite IH. apply option_map_append.
Qed.

Lemma literal_value_EscapeGoString (keep_cr : bool) (s : string) :
  literal_value keep_cr Operand (EscapeGoString s)
  = Some (kept keep_cr s).
Proof.
  unfold EscapeGoString.
  change ("`" ++ ReplaceAll s backquote quoted_backquote ++ "`")%string
    with (String backquote
            (ReplaceAll s backquote quoted_backquote ++ "`"))%string.
  cbn [literal_value]. change (Ascii.eqb backquote backquote) with true.
  cbv iota. rewrite literal_value_escaped.
  change (literal_value keep_cr InRaw "`") with (Some EmptyString).
  cbn [option_map]. f_equal.
  generalize (kept keep_cr s) as t. induction t as [| a t IHt];
    [reflexivity | cbn [append]; f_equal; exact IHt].
Qed.

Lemma without_cr_length (s : string) :
  (String.length (without_cr s) <= String.length s)%nat.
Proof.
  induction s as [| a s IH]; [apply le_n |].
  cbn [without_cr]. destruct (Ascii.eqb a carriage_return); cbn; lia.
Qed.

Lemma without_cr_fixed (s : string) :
  without_cr s = s <-> has_cr s = false.
Proof.
  induction s as [| a s IH]; [split; reflexivity |].
  cbn [without_cr has_cr]. destruct (Ascii.eqb a carriage_return); cbn [orb].
  - split; [| discriminate]. intros Heq.
    pose proof (without_cr_length s) as Hlen. rewrite Heq in Hlen.
    cbn in Hlen. lia.
  - rewrite <- IH. split; [intros H; injection H; auto | intros ->; auto].
Qed.


(** X2: [EscapeGoString] loses nothing: two strings with the same escaped
    text are the same string. *)
Theorem EscapeGoString_injective (s1 s2 : string) :
  EscapeGoString s1 = EscapeGoString s2 -> s1 = s2.
Proof.
  intros Heq.
  pose proof (literal_value_EscapeGoString true s1) as H1.
  rewrite Heq, (literal_value_EscapeGoString true s2) in H1.
  cbn [kept] in H1. injection H1 as H1. symmetry. exact H1.
Qed.

Lemma EscapeGoString_injective_witness :
  "a`b"%string = "a`b"%string.
Proof.
  apply (EscapeGoString_injective "a`b" "a`b"). reflexivity.
Defined.

Lemma length_append (s t : string) :
  String.length (s ++ t) = (String.length s + String.length t)%nat.
Proof.
  induction s as [| a s IH]; [reflexivity |]. cbn. rewrite IH. reflexivity.
Qed.

Lemma ReplaceAll_length (s : string) :
  String.length (ReplaceAll s backquote quoted_backquote)
  = (String.length s + 10 * backquotes s)%nat.
Proof.
  induction s as [| a s IH]; [reflexivity |].
  cbn [ReplaceAll backquotes]. destruct (Ascii.eqb a backquote).
  - rewrite length_append, IH.
    change (String.length quoted_backquote) with 11%nat. cbn. lia.
  - cbn [String.length]. rewrite IH. lia.
Qed.

Lemma ReplaceAll_absent (s : string) :
  backquotes s = 0%nat -> ReplaceAll s backquote quoted_backquote = s.
Proof.
  induction s as [| a s IH]; [reflexivity |].
  cbn [ReplaceAll backquotes]. destruct (Ascii.eqb a backquote);
    [discriminate |].
  intros H. rewrite (IH H). reflexivity.
Qed.

(** X3: the escaped text is [s] between two back quotes when [s] has no
    back quote, and in general is 2 bytes longer than [s] plus 10 bytes for
    each back quote of [s]. *)
Theorem EscapeGoString_length (s : string) :
  String.length (EscapeGoString s)
  = (String.length s + 2 + 10 * backquotes s)%nat
  /\ (backquotes s = 0%nat -> EscapeGoString s = ("`" ++ s ++ "`")%string).
Proof.
  unfold EscapeGoString. split.
  - rewrite !length_append, ReplaceAll_length. cbn. lia.
  - intros H. rewrite (ReplaceAll_absent s H). reflexivity.
Qed.

Lemma EscapeGoString_length_witness :
  String.length (EscapeGoString "go") = 4%nat
  /\ (backquotes "go" = 0%nat -> EscapeGoString "go" = "`go`"%string).
Proof.
  apply (EscapeGoString_length "go").
Defined.

(** ** Facts: RandString *)

Lemma filled_length (len : nat) (read : list Byte.byte) :
  List.length (filled len read) = len.
Proof.
  unfold filled. rewrite length_firstn, length_app, repeat_length. lia.
Qed.

Lemma EncodeToString_length (src : list Byte.byte) :
  String.length (EncodeToString src) = (2 * List.length src)%nat.
Proof.
  induction src as [| v src IH]; [reflexivity |].
  cbn [EncodeToString String.length List.length]. rewrite IH. lia.
Qed.

Lemma EncodeToString_hex (src : list Byte.byte) :
  all_hex (EncodeToString src) = true.
Proof.
  induction src as [| v src IH]; [reflexivity |].
  cbn [EncodeToString all_hex]. rewrite IH.
  destruct v; reflexivity.
Qed.



(** ** Facts: E *)

Lemma index_last {A : Type} (xs : list A) (v : A) :
  index (xs ++ [v]) (Z.of_nat (List.length (xs ++ [v])) - 1) = Some v.
Proof.
  unfold index. rewrite length_app. cbn [List.length].
  replace (Z.of_nat (List.length xs + 1) - 1) with (Z.of_nat (List.length xs))
    by lia.
  destruct (Z.leb_spec 0 (Z.of_nat (List.length xs))) as [_ | H]; [| lia].
  destruct (Z.ltb_spec (Z.of_nat (List.length xs))
              (Z.of_nat (List.length xs + 1))) as [_ | H]; [| lia].
  cbn [andb]. rewrite Nat2Z.id, nth_error_app2 by apply le_n.
  rewrite Nat.sub_diag. reflexivity.
Qed.

(** X5: [E] looks at its last argument only.  If that is an error, [E]
    panics with it; if not, [E] returns all its arguments as they are,
    errors among the earlier ones included; with no argument at all the
    index is out of range. *)
Theorem E_last_only {V : Type} (xs : list (any V)) (v : any V) :
  (forall e, v = AnyError e -> E (xs ++ [v]) = PanicWith e)
  /\ (is_error v = false -> E (xs ++ [v]) = Passed (xs ++ [v]))
  /\ E (V := V) [] = RuntimePanic "index out of range [-1]".
Proof.
  split; [| split].
  - intros e ->. unfold E. rewrite index_last. reflexivity.
  - intros Hv. unfold E. rewrite index_last.
    destruct v; [reflexivity | discriminate Hv | reflexivity].
  - reflexivity.
Qed.

Lemma E_last_only_witness :
  E [AnyValue 1; AnyError Canceled] = PanicWith Canceled
  /\ E [AnyError Canceled; AnyValue 1]
     = Passed [AnyError Canceled; AnyValue 1].
Proof.
  split.
  - apply (E_last_only [AnyValue 1] (AnyError Canceled)). reflexivity.
  - apply (E_last_only [AnyError Canceled] (AnyValue 1)). reflexivity.
Defined.

(** ** Facts: loggers *)

Lemma MultiLogger_app {V L : Type} (l1 l2 : list (Logger V L))
  (msg : list (any V)) (w : L) :
  MultiLogger (l1 ++ l2) msg w = MultiLogger l2 msg (MultiLogger l1 msg w).
Proof. unfold MultiLogger. apply fold_left_app. Qed.

(** X6: [MultiLogger] hands the message to every logger of its list once,
    in the order of the list: loggers that write to one transcript leave
    one line each, in that order, after what was there. *)
Theorem MultiLogger_in_order {V : Type} (names : list nat)
  (msg : list (any V)) (w : list (nat * list (any V))) :
  MultiLogger (map transcribe names) msg w
  = w ++ map (fun name => (name, msg)) names.
Proof.
  revert w. induction names as [| n names IH]; intros w.
  - cbn. rewrite app_nil_r. reflexivity.
  - change (map transcribe (n :: names))
      with ([transcribe n] ++ map (transcribe (V := V)) names).
    rewrite MultiLogger_app, IH. unfold MultiLogger at 1.
    cbn [fold_left]. unfold transcribe. rewrite <- app_assoc. reflexivity.
Qed.

(** X7: a [MultiLogger] used as one of the loggers of another behaves as
    its own loggers spliced in at that place; [LoggerQuiet] in a list
    changes nothing. *)
Theorem MultiLogger_nested {V L : Type} (l1 l2 l3 : list (Logger V L))
  (msg : list (any V)) (w : L) :
  MultiLogger (l1 ++ Log_Println (MultiLogger l2) :: l3) msg w
  = MultiLogger (l1 ++ l2 ++ l3) msg w
  /\ MultiLogger (l1 ++ LoggerQuiet :: l3) msg w
     = MultiLogger (l1 ++ l3) msg w.
Proof.
  split.
  - rewrite !MultiLogger_app.
    change (Log_Println (MultiLogger l2) :: l3)
      with ([Log_Println (MultiLogger l2)] ++ l3).
    rewrite MultiLogger_app. reflexivity.
  - rewrite !MultiLogger_app. reflexivity.
Qed.

(** ** Facts: the budget of CountSleeper *)

Lemma wakes_cons (r : option error) (rs : list (option error)) :
  wakes (r :: rs)
  = match r with
    | None => Datatypes.S (wakes rs)
    | Some _ => wakes rs
    end.
Proof. unfold wakes. destruct r; reflexivity. Qed.

Lemma CountSleeper_call_cases (ctx : Context) (c : CountSleeperClosure) :
  (exists e, CountSleeper_call ctx c = (Some e, c))
  \/ (count c <> max c
      /\ CountSleeper_call ctx c
         = (None, {| max := max c; count := wrap64 (count c + 1) |})).
Proof.
  unfold CountSleeper_call. destruct (Err ctx) as [e |].
  - left. exists e. reflexivity.
  - destruct (Z.eqb_spec (count c) (max c)) as [Heq | Hne].
    + left. eexists. reflexivity.
    + right. split; [assumption | reflexivity].
Qed.

Lemma CountSleeper_counts (ctxs : list Context) :
  forall c : CountSleeperClosure,
    0 <= count c <= max c -> max c <= MaxInt64 ->
    let r := calls CountSleeper_call ctxs c in
    count (snd r) = count c + Z.of_nat (wakes (fst r))
    /\ count (snd r) <= max c
    /\ max (snd r) = max c.
Proof.
  induction ctxs as [| ctx ctxs IH]; intros c Hc Hm; cbn zeta.
  - cbn. lia.
  - cbn [calls].
    destruct (CountSleeper_call_cases ctx c) as [[e ->] | [Hne ->]].
    + specialize (IH c Hc Hm). cbn zeta in IH.
      destruct (calls CountSleeper_call ctxs c) as [rs c2].
      cbn [fst snd] in *. rewrite wakes_cons. exact IH.
    + rewrite wrap64_id by (unfold MinInt64, MaxInt64 in *; lia).
      specialize (IH {| max := max c; count := count c + 1 |}).
      cbn [max count] in IH. cbn zeta in IH.
      destruct (calls CountSleeper_call ctxs _) as [rs c2].
      cbn [fst snd] in *. rewrite wakes_cons.
      destruct IH as (H1 & H2 & H3); lia.
Qed.

(** X8: whatever tokens it is called with, canceled or not, a
    count-bounded sleeper built with [max = n >= 0] wakes its caller at
    most [n] times, and its count is the number of times it did. *)
Theorem CountSleeper_never_over_budget (n : int) (ctxs : list Context) :
  0 <= n <= MaxInt64 ->
  let r := calls CountSleeper_call ctxs (CountSleeper n) in
  Z.of_nat (wakes (fst r)) <= n
  /\ count (snd r) = Z.of_nat (wakes (fst r)).
Proof.
  intros Hn.
  pose proof (CountSleeper_counts ctxs (CountSleeper n)) as H.
  cbn [CountSleeper max count] in H. cbn zeta in *.
  destruct H as (H1 & H2 & _); lia.
Qed.

Lemma CountSleeper_never_over_budget_witness :
  let r := calls CountSleeper_call
             [Background; {| Err := Some Canceled |}; Background; Background]
             (CountSleeper 2) in
  Z.of_nat (wakes (fst r)) <= 2
  /\ count (snd r) = Z.of_nat (wakes (fst r)).
Proof.
  apply (CountSleeper_never_over_budget 2
           [Background; {| Err := Some Canceled |}; Background; Background]).
  unfold MaxInt64. lia.
Defined.

(** X9: a count-bounded sleeper whose count has reached [max] stays spent:
    every later call returns an error (the token's if it is canceled, else
    "max sleep count") and leaves the closure as it is. *)
Theorem CountSleeper_stays_spent
  (ctxs : list Context) (c : CountSleeperClosure) :
  count c = max c ->
  calls CountSleeper_call ctxs c = (map spent_answer ctxs, c).
Proof.
  intros Hc. induction ctxs as [| ctx ctxs IH]; [reflexivity |].
  cbn [calls map]. unfold CountSleeper_call at 1, spent_answer at 1.
  destruct (Err ctx) as [e |].
  - rewrite IH. reflexivity.
  - rewrite Hc, Z.eqb_refl, IH. reflexivity.
Qed.

Lemma CountSleeper_stays_spent_witness :
  calls CountSleeper_call [Background; {| Err := Some Canceled |}]
    (CountSleeper 0)
  = ([Some (errorString "max sleep count"); Some Canceled], CountSleeper 0).
Proof.
  apply (CountSleeper_stays_spent [Background; {| Err := Some Canceled |}]
           (CountSleeper 0)).
  reflexivity.
Defined.

Lemma CountSleeper_unbounded (ctxs : list Context) :
  forall c : CountSleeperClosure,
    Forall never_canceled ctxs ->
    max c < 0 -> 0 <= count c ->
    count c + Z.of_nat (List.length ctxs) <= 2 ^ 63 ->
    fst (calls CountSleeper_call ctxs c) = repeat None (List.length ctxs).
Proof.
  induction ctxs as [| ctx ctxs IH]; intros c Hlive Hm Hc Hk;
    [reflexivity |].
  pose proof (Forall_inv Hlive) as Hctx.
  pose proof (Forall_inv_tail Hlive) as Hrest.
  unfold never_canceled in Hctx.
  cbn [calls List.length repeat]. unfold CountSleeper_call at 1.
  rewrite Hctx. destruct (Z.eqb_spec (count c) (max c)) as [Heq | _]; [lia |].
  cbn [List.length] in Hk.
  destruct ctxs as [| ctx2 ctxs]; [reflexivity |].
  cbn [List.length] in Hk.
  rewrite wrap64_id by (unfold MinInt64, MaxInt64; lia).
  specialize (IH {| max := max c; count := count c + 1 |} Hrest).
  cbn [max count] in IH.
  destruct (calls CountSleeper_call (ctx2 :: ctxs) _) as [rs c2].
  cbn [fst] in *. rewrite IH; [reflexivity | lia | lia |].
  cbn [List.length]. lia.
Qed.

(** X10: a count-bounded sleeper built with a negative [max] has no
    budget to spend: called with tokens that are never canceled, it
    returns nil on every one of its first [2^63] calls. *)
Theorem CountSleeper_negative_max (m : int) (ctxs : list Context) :
  m < 0 ->
  Forall never_canceled ctxs ->
  Z.of_nat (List.length ctxs) <= 2 ^ 63 ->
  fst (calls CountSleeper_call ctxs (CountSleeper m))
  = repeat None (List.length ctxs).
Proof.
  intros Hm Hlive Hlen.
  apply CountSleeper_unbounded; cbn [CountSleeper max count];
    (assumption || lia).
Qed.

Lemma CountSleeper_negative_max_witness :
  fst (calls CountSleeper_call [Background; Background; Background]
         (CountSleeper (-1)))
  = [None; None; None].
Proof.
  apply (CountSleeper_negative_max (-1) [Background; Background; Background]).
  - reflexivity.
  - repeat constructor.
  - discriminate.
Defined.

(** ** Facts: Retry with the sleepers *)

Lemma Retry_fuel_add {A S : Type} (extra fuel : nat) :
  forall ctx (s : Sleeper S) (fn : Action A) a st r,
    Retry fuel ctx s fn a st = Some r ->
    Retry (fuel + extra) ctx s fn a st = Some r.
Proof.
  induction extra as [| extra IH]; intros ctx s fn a st r Hr.
  - rewrite Nat.add_0_r. exact Hr.
  - rewrite Nat.add_succ_r. apply Retry_more_fuel. apply IH. exact Hr.
Qed.

(** With [k] wakes left in the budget, [Retry] is back within [k + 1]
    calls of the action. *)
Lemma Retry_within_budget {A : Type} (ctx : Context) (fn : Action A)
  (k : nat) :
  forall (a : A) (j : nat) (c : CountSleeperClosure),
    0 <= count c -> count c + Z.of_nat k = max c -> max c <= MaxInt64 ->
    exists r a2 j2 c2,
      Retry (Datatypes.S k) ctx CountSleeper_call (counted_action fn)
        (a, j) c = Some (r, (a2, j2), c2)
      /\ (j + 1 <= j2 <= j + k + 1)%nat.
Proof.
  induction k as [| k IH]; intros a j c Hc Hk Hm; cbn [Retry counted_action];
    destruct (fn a) as [[stop err] a1]; destruct stop;
    try (exists err, a1, (Datatypes.S j), c; split; [reflexivity | lia]).
  - destruct (CountSleeper_call_cases ctx c) as [[e ->] | [Hne _]];
      [| lia].
    exists (Some e), a1, (Datatypes.S j), c. split; [reflexivity | lia].
  - destruct (CountSleeper_call_cases ctx c) as [[e ->] | [Hne ->]].
    + exists (Some e), a1, (Datatypes.S j), c. split; [reflexivity | lia].
    + rewrite wrap64_id by (unfold MinInt64, MaxInt64 in *; lia).
      destruct (IH a1 (Datatypes.S j)
                  {| max := max c; count := count c + 1 |})
        as (r & a2 & j2 & c2 & Hr & Hj); cbn [max count]; try lia.
      exists r, a2, j2, c2. split; [exact Hr | lia].
Qed.

(** X11: with a count-bounded sleeper built with [max = n >= 0], [Retry]
    returns, whatever the action and the token: it calls the action at
    least once and at most [n + 1] times. *)
Theorem Retry_CountSleeper_returns {A : Type}
  (n : int) (ctx : Context) (fn : Action A) (a : A) :
  0 <= n <= MaxInt64 ->
  exists r a2 j2 c2,
    Retry (Datatypes.S (Z.to_nat n)) ctx CountSleeper_call
      (counted_action fn) (a, 0%nat) (CountSleeper n)
    = Some (r, (a2, j2), c2)
    /\ (1 <= j2 <= Z.to_nat n + 1)%nat.
Proof.
  intros Hn.
  destruct (Retry_within_budget ctx fn (Z.to_nat n) a 0%nat (CountSleeper n))
    as (r & a2 & j2 & c2 & Hr & Hj); cbn [CountSleeper max count]; try lia.
  exists r, a2, j2, c2. split; [exact Hr | lia].
Qed.

Lemma Retry_CountSleeper_returns_witness :
  exists r a2 j2 c2,
    Retry 3 Background CountSleeper_call (counted_action stop_on_third)
      (0%nat, 0%nat) (CountSleeper 2)
    = Some (r, (a2, j2), c2)
    /\ (1 <= j2 <= 2 + 1)%nat.
Proof.
  apply (Retry_CountSleeper_returns 2 Background stop_on_third 0%nat).
  unfold MaxInt64. lia.
Defined.

Lemma Retry_spends_budget {A : Type} (ctx : Context) (fn : Action A)
  (k : nat) :
  never_canceled ctx -> never_stops fn ->
  forall (a : A) (j : nat) (c : CountSleeperClosure),
    0 <= count c -> count c + Z.of_nat k = max c -> max c <= MaxInt64 ->
    exists a2,
      Retry (Datatypes.S k) ctx CountSleeper_call (counted_action fn)
        (a, j) c
      = Some (Some (errorString "max sleep count"),
              (a2, (j + k + 1)%nat), {| max := max c; count := max c |}).
Proof.
  intros Hctx Hgo.
  induction k as [| k IH]; intros a j c Hc Hk Hm; cbn [Retry counted_action];
    pose proof (Hgo a) as Hstop;
    destruct (fn a) as [[stop err] a1]; cbn [fst] in Hstop; subst stop.
  - rewrite CountSleeper_call_spent by (assumption || lia).
    exists a1. destruct c as [m x]. cbn [max count] in *.
    replace x with m by lia. repeat f_equal. lia.
  - rewrite CountSleeper_call_live by (assumption || lia).
    destruct (IH a1 (Datatypes.S j)
                {| max := max c; count := count c + 1 |})
      as (a2 & Hr); cbn [max count]; try lia.
    exists a2. refine (eq_trans Hr _). cbn [max].
    replace (Datatypes.S j + k + 1)%nat with (j + Datatypes.S k + 1)%nat
      by lia.
    reflexivity.
Qed.

(** X12: with an action that never stops, a token that is never canceled
    and a count-bounded sleeper built with [max = n >= 0], [Retry] returns
    the error "max sleep count" after exactly [n + 1] calls of the action,
    the sleeper having woken [n] times; more fuel changes nothing. *)
Theorem Retry_gives_up {A : Type}
  (n : int) (ctx : Context) (fn : Action A) (a : A) (extra : nat) :
  0 <= n <= MaxInt64 -> never_canceled ctx -> never_stops fn ->
  exists a2,
    Retry (Datatypes.S (Z.to_nat n) + extra) ctx CountSleeper_call
      (counted_action fn) (a, 0%nat) (CountSleeper n)
    = Some (Some (errorString "max sleep count"),
            (a2, Datatypes.S (Z.to_nat n)), {| max := n; count := n |}).
Proof.
  intros Hn Hctx Hgo.
  destruct (Retry_spends_budget ctx fn (Z.to_nat n) Hctx Hgo a 0%nat
              (CountSleeper n)) as (a2 & Hr);
    cbn [CountSleeper max count]; try lia.
  exists a2. apply Retry_fuel_add. rewrite Hr.
  cbn [CountSleeper max]. repeat f_equal. lia.
Qed.

Lemma Retry_gives_up_witness :
  exists a2,
    Retry (3 + 4) Background CountSleeper_call (counted_action go_on)
      (0%nat, 0%nat) (CountSleeper 2)
    = Some (Some (errorString "max sleep count"),
            (a2, 3%nat), {| max := 2; count := 2 |}).
Proof.
  apply (Retry_gives_up 2 Background go_on 0%nat 4).
  - unfold MaxInt64. lia.
  - reflexivity.
  - intros a. reflexivity.
Defined.

(** While the action never stops and the sleeper never fails, the loop
    of [Retry] does not end. *)
Lemma Retry_spins {A S : Type} (ctx : Context) (s : Sleeper S)
  (fn : Action A) (Inv : S -> Prop) :
  never_stops fn ->
  (forall st, Inv st -> fst (s ctx st) = None /\ Inv (snd (s ctx st))) ->
  forall fuel a st, Inv st -> Retry fuel ctx s fn a st = None.
Proof.
  intros Hgo Hs. induction fuel as [| fuel IH]; intros a st Hinv;
    [reflexivity |].
  cbn [Retry]. pose proof (Hgo a) as Hstop.
  destruct (fn a) as [[stop err] a1]. cbn [fst] in Hstop. subst stop.
  destruct (Hs st Hinv) as [Hnone Hinv1].
  destruct (s ctx st) as [r st1]. cbn [fst snd] in *. subst r.
  apply IH. exact Hinv1.
Qed.

(** X13: with a backoff sleeper built with [maxInterval <= 0] and an
    action that never stops, [Retry] does not return, however much fuel it
    is given, and a canceled token does not end it either: that sleeper
    never looks at the token. *)
Theorem Retry_busy_loop {A W : Type} (Float64 : Rand W)
  (init0 maxInterval0 : Duration) (alg : option (Algorithm W))
  (ctx : Context) (ready : selected) (fn : Action A) (a : A) (w : W)
  (fuel : nat) :
  maxInterval0 <= 0 -> never_stops fn ->
  Retry fuel ctx (BackoffSleeper_sleeper ready) fn a
    (BackoffSleeper Float64 init0 maxInterval0 alg, w)
  = None.
Proof.
  intros Hmax Hgo.
  apply (Retry_spins ctx (BackoffSleeper_sleeper ready) fn
           (fun st => maxInterval (fst st) <= 0)); [exact Hgo | | exact Hmax].
  intros [c w0] Hc. cbn [fst] in Hc.
  unfold BackoffSleeper_sleeper, BackoffSleeper_call.
  destruct (Z.leb_spec (maxInterval c) 0) as [_ | Hpos]; [| lia].
  cbn. split; [reflexivity | exact Hc].
Qed.

Lemma Retry_busy_loop_witness :
  Retry 100 {| Err := Some Canceled |} (BackoffSleeper_sleeper CtxDone)
    go_on 0%nat (BackoffSleeper draw_half 0 0 None, tt)
  = None.
Proof.
  apply (Retry_busy_loop draw_half 0 0 None {| Err := Some Canceled |}
           CtxDone go_on 0%nat tt 100).
  - discriminate.
  - intros a. reflexivity.
Defined.

(** X14: under a token that is already canceled, [Retry] with a
    count-bounded sleeper still calls the action once; it returns the
    action's error if the action stops and the token's error if not, and
    the sleeper's budget is as it was. *)
Theorem Retry_canceled_runs_once {A : Type} (fuel : nat)
  (ctx : Context) (e : error) (fn : Action A) (a : A)
  (c : CountSleeperClosure) :
  Err ctx = Some e ->
  Retry (Datatypes.S fuel) ctx CountSleeper_call (counted_action fn)
    (a, 0%nat) c
  = Some (if fst (fst (fn a)) then snd (fst (fn a)) else Some e,
          (snd (fn a), 1%nat), c).
Proof.
  intros He. cbn [Retry counted_action].
  destruct (fn a) as [[stop err] a1]. cbn [fst snd].
  destruct stop; [reflexivity |].
  rewrite (CountSleeper_call_canceled ctx e c He). reflexivity.
Qed.

Lemma Retry_canceled_runs_once_witness :
  Retry 5 {| Err := Some Canceled |} CountSleeper_call
    (counted_action go_on) (0%nat, 0%nat) (CountSleeper 3)
  = Some (Some Canceled, (1%nat, 1%nat), CountSleeper 3).
Proof.
  apply (Retry_canceled_runs_once 4 {| Err := Some Canceled |} Canceled
           go_on 0%nat (CountSleeper 3)).
  reflexivity.
Defined.

(** ** Facts: more on BackoffSleeper *)

(** X15: built with [init] equal to a positive [maxInterval], a backoff
    sleeper is a constant sleeper: under tokens that are never canceled
    every call sets its timer to [maxInterval], the algorithm is never
    called and the closure stays as it is. *)
Theorem BackoffSleeper_constant {W : Type} (Float64 : Rand W)
  (d : Duration) (alg : option (Algorithm W))
  (cs : list (Context * selected)) (w : W) :
  0 < d -> live cs ->
  BackoffSleeper_calls cs (BackoffSleeper Float64 d d alg) w
  = (map (fun _ => {| ret := None; timer := Some d |}) cs,
     BackoffSleeper Float64 d d alg, w).
Proof.
  intros Hd Hlive. induction cs as [| [ctx ready] cs IH]; [reflexivity |].
  pose proof (Forall_inv Hlive) as Hctx. cbn [fst] in Hctx.
  pose proof (Forall_inv_tail Hlive) as Hrest.
  cbn [BackoffSleeper_calls map].
  rewrite BackoffSleeper_call_live by (cbn; assumption).
  rewrite interval_of_capped by (cbn; lia).
  cbn [fst snd].
  change (set_init (BackoffSleeper Float64 d d alg)
            (maxInterval (BackoffSleeper Float64 d d alg)))
    with (BackoffSleeper Float64 d d alg).
  rewrite (IH Hrest). reflexivity.
Qed.

Lemma BackoffSleeper_constant_witness :
  BackoffSleeper_calls [(Background, TimerC); (Background, CtxDone)]
    (BackoffSleeper draw_half Second Second None) tt
  = ([{| ret := None; timer := Some Second |};
      {| ret := None; timer := Some Second |}],
     BackoffSleeper draw_half Second Second None, tt).
Proof.
  apply (BackoffSleeper_constant draw_half Second None
           [(Background, TimerC); (Background, CtxDone)] tt).
  - reflexivity.
  - repeat constructor.
Defined.

Lemma BackoffSleeper_call_lost {W : Type}
  (x : Context * selected) (c : BackoffSleeperClosure W) (w : W) :
  timer_wins x = false -> 0 < maxInterval c ->
  BackoffSleeper_call (fst x) (snd x) c w
  = ({| ret := Err (fst x); timer := Some (fst (interval_of c w)) |},
     c, snd (interval_of c w)).
Proof.
  destruct x as [ctx ready]. unfold timer_wins, BackoffSleeper_call.
  cbn [fst snd]. intros Hx Hmax.
  destruct (Z.leb_spec (maxInterval c) 0); [lia |].
  destruct (interval_of c w) as [d w1].
  destruct (Err ctx) as [e |], ready; try discriminate Hx. reflexivity.
Qed.

Lemma BackoffSleeper_call_won {W : Type}
  (x : Context * selected) (c : BackoffSleeperClosure W) (w : W) :
  timer_wins x = true -> 0 < maxInterval c ->
  BackoffSleeper_call (fst x) (snd x) c w
  = ({| ret := None; timer := Some (fst (interval_of c w)) |},
     set_init c (fst (interval_of c w)), snd (interval_of c w)).
Proof.
  destruct x as [ctx ready]. unfold timer_wins, BackoffSleeper_call.
  cbn [fst snd]. intros Hx Hmax.
  destruct (Z.leb_spec (maxInterval c) 0); [lia |].
  destruct (interval_of c w) as [d w1].
  destruct (Err ctx) as [e |], ready; try discriminate Hx; reflexivity.
Qed.

Lemma interval_of_pure {W : Type} (c : BackoffSleeperClosure W) (w w' : W) :
  (forall d w1 w2, fst (algorithm c d w1) = fst (algorithm c d w2)) ->
  fst (interval_of c w) = fst (interval_of c w').
Proof.
  intros Hpure. unfold interval_of.
  destruct (init c <? maxInterval c); [apply Hpure | reflexivity].
Qed.

(** X16: a wait that the token ends does not advance the backoff.  When
    the algorithm's result depends on the interval only, the intervals
    waited over a run, and the interval stored at its end, are those of
    the run without its canceled calls. *)
Theorem BackoffSleeper_cancel_no_advance {W : Type}
  (cs : list (Context * selected)) :
  forall (c : BackoffSleeperClosure W) (w w' : W),
    (forall d w1 w2, fst (algorithm c d w1) = fst (algorithm c d w2)) ->
    intervals cs c w = intervals (filter timer_wins cs) c w'
    /\ init (closure_after cs c w)
       = init (closure_after (filter timer_wins cs) c w').
Proof.
  unfold intervals, closure_after.
  induction cs as [| x cs IH]; intros c w w' Hpure; [split; reflexivity |].
  destruct (Z.le_gt_cases (maxInterval c) 0) as [Hle | Hpos].
  - assert (Hidle : forall l v, BackoffSleeper_calls l c v
                      = (map (fun _ => {| ret := None; timer := None |}) l,
                         c, v)).
    { intros l v. induction l as [| [ctx ready] l IHl]; [reflexivity |].
      cbn [BackoffSleeper_calls map]. unfold BackoffSleeper_call at 1.
      destruct (Z.leb_spec (maxInterval c) 0); [| lia].
      rewrite IHl. reflexivity. }
    rewrite !Hidle. cbn [fst snd]. split; [| reflexivity].
    assert (Hnone : forall l : list (Context * selected),
               waited (map (fun _ => {| ret := None; timer := None |}) l)
               = []).
    { intros l. induction l as [| y l IHl]; [reflexivity | exact IHl]. }
    rewrite !Hnone. reflexivity.
  - cbn [filter]. destruct (timer_wins x) eqn:Hx.
    + destruct x as [ctx ready]. cbn [BackoffSleeper_calls].
      pose proof (BackoffSleeper_call_won (ctx, ready) c w Hx Hpos) as H1.
      pose proof (BackoffSleeper_call_won (ctx, ready) c w' Hx Hpos) as H2.
      cbn [fst snd] in H1, H2. rewrite H1, H2.
      rewrite (interval_of_pure c w w' Hpure).
      specialize (IH (set_init c (fst (interval_of c w')))
                    (snd (interval_of c w)) (snd (interval_of c w')) Hpure).
      destruct (BackoffSleeper_calls cs _ (snd (interval_of c w)))
        as [[ks c2] w2].
      destruct (BackoffSleeper_calls (filter timer_wins cs) _ _)
        as [[ks' c2'] w2'].
      cbn [fst snd] in *. destruct IH as [IH1 IH2].
      split; [| exact IH2].
      change (waited ({| ret := None; timer := Some (fst (interval_of c w')) |}
                        :: ks))
        with (fst (interval_of c w') :: waited ks).
      change (waited ({| ret := None; timer := Some (fst (interval_of c w')) |}
                        :: ks'))
        with (fst (interval_of c w') :: waited ks').
      rewrite IH1. reflexivity.
    + destruct x as [ctx ready]. cbn [BackoffSleeper_calls].
      pose proof (BackoffSleeper_call_lost (ctx, ready) c w Hx Hpos) as H1.
      cbn [fst snd] in H1. rewrite H1.
      specialize (IH c (snd (interval_of c w)) w' Hpure).
      destruct (BackoffSleeper_calls cs c (snd (interval_of c w)))
        as [[ks c2] w2].
      destruct (BackoffSleeper_calls (filter timer_wins cs) c w')
        as [[ks' c2'] w2'].
      cbn [fst snd] in *. destruct IH as [IH1 IH2].
      split; [| exact IH2].
      rewrite <- IH1. unfold waited. cbn [flat_map ret timer].
      unfold timer_wins in Hx. cbn [fst snd] in Hx.
      destruct (Err ctx) as [e |]; [reflexivity |].
      destruct ready; discriminate Hx.
Qed.

Lemma BackoffSleeper_cancel_no_advance_witness :
  let cs := [(Background, TimerC); ({| Err := Some Canceled |}, CtxDone);
             (Background, TimerC)] in
  let c := BackoffSleeper draw_half 1 8 (Some (double_up_to 8)) in
  intervals cs c tt = intervals (filter timer_wins cs) c tt
  /\ init (closure_after cs c tt)
     = init (closure_after (filter timer_wins cs) c tt).
Proof.
  apply (BackoffSleeper_cancel_no_advance
           [(Background, TimerC); ({| Err := Some Canceled |}, CtxDone);
            (Background, TimerC)]
           (BackoffSleeper draw_half 1 8 (Some (double_up_to 8))) tt tt).
  intros d w1 w2. reflexivity.
Defined.

Lemma intervals_settle {W : Type} (l1 : list Duration) :
  forall (cs : list (Context * selected)) (c : BackoffSleeperClosure W)
         (w : W) (d : Duration) (l2 : list Duration),
    live cs -> 0 < maxInterval c ->
    intervals cs c w = l1 ++ d :: l2 ->
    maxInterval c <= d -> Forall (eq (maxInterval c)) l2.
Proof.
  induction l1 as [| x l1 IH]; intros cs c w d l2 Hlive Hmax Heq Hd;
    destruct cs as [| [ctx ready] cs]; try discriminate Heq;
    pose proof (Forall_inv Hlive) as Hctx; cbn [fst] in Hctx;
    pose proof (Forall_inv_tail Hlive) as Hrest;
    rewrite intervals_cons in Heq by assumption;
    cbn [app] in Heq; injection Heq as Hx Hrest'.
  - rewrite <- Hrest'.
    change (maxInterval c)
      with (maxInterval (set_init c (fst (interval_of c w)))).
    apply intervals_capped; cbn; (assumption || lia).
  - exact (IH cs (set_init c (fst (interval_of c w)))
             (snd (interval_of c w)) d l2 Hrest Hmax Hrest' Hd).
Qed.

(** X17: in a run under tokens that are never canceled, at most one wait
    is longer than a positive [maxInterval], whatever the algorithm: all
    waits before it are shorter than [maxInterval] and all waits after it
    last [maxInterval]. *)
Theorem BackoffSleeper_one_overshoot {W : Type}
  (cs : list (Context * selected)) (c : BackoffSleeperClosure W) (w : W)
  (l1 l2 : list Duration) (d : Duration) :
  live cs -> 0 < maxInterval c ->
  intervals cs c w = l1 ++ d :: l2 ->
  maxInterval c < d ->
  Forall (fun x => x < maxInterval c) l1
  /\ Forall (eq (maxInterval c)) l2.
Proof.
  intros Hlive Hmax Heq Hd. split.
  - apply Forall_forall. intros x Hin.
    destruct (Z.lt_ge_cases x (maxInterval c)) as [Hlt | Hge];
      [exact Hlt | exfalso].
    apply in_split in Hin. destruct Hin as (la & lb & ->).
    rewrite <- app_assoc in Heq. cbn [app] in Heq.
    pose proof (intervals_settle la cs c w x (lb ++ d :: l2) Hlive Hmax Heq)
      as Hall.
    assert (Hx : maxInterval c <= x) by lia. specialize (Hall Hx).
    apply Forall_app in Hall. destruct Hall as [_ Hall].
    apply Forall_inv in Hall. lia.
  - apply (intervals_settle l1 cs c w d l2 Hlive Hmax Heq). lia.
Qed.

Lemma BackoffSleeper_one_overshoot_witness :
  Forall (fun x => x < Second)
    [200 * Millisecond; 400 * Millisecond; 800 * Millisecond]
  /\ Forall (eq Second) [1000 * Millisecond].
Proof.
  apply (BackoffSleeper_one_overshoot
           (repeat (Background, TimerC) 5)
           (BackoffSleeper draw_half (100 * Millisecond) Second None) tt
           [200 * Millisecond; 400 * Millisecond; 800 * Millisecond]
           [1000 * Millisecond] (1600 * Millisecond)).
  - repeat constructor.
  - reflexivity.
  - vm_compute. reflexivity.
  - reflexivity.
Defined.

Lemma DefaultBackoff_zero {W : Type} (Float64 : Rand W) (w : W) :
  finite_float (backoff_scale (fst (Float64 w))) = true ->
  DefaultBackoff Float64 0 w = (0, snd (Float64 w)).
Proof.
  unfold DefaultBackoff, finite_float. intros Hf.
  destruct (Float64 w) as [r w1]. cbn [fst snd] in *.
  fold (backoff_scale r). f_equal.
  unfold int64_of_float64. rewrite mul_spec.
  change (Prim2SF (float64_of_int64 0)) with (S754_zero false).
  destruct (Prim2SF (backoff_scale r)) as [s | s | | s m e];
    try discriminate Hf; reflexivity.
Qed.

(** X18: from a stored interval of 0 the default algorithm never grows:
    as long as the scale it draws is a number, a backoff sleeper built
    with [init = 0] and no algorithm of its own sets every timer to 0,
    under tokens that are never canceled and any positive
    [maxInterval]. *)
Theorem BackoffSleeper_zero_init {W : Type} (Float64 : Rand W)
  (maxInterval0 : Duration) (cs : list (Context * selected)) (w : W) :
  0 < maxInterval0 -> live cs ->
  (forall w0, finite_float (backoff_scale (fst (Float64 w0))) = true) ->
  intervals cs (BackoffSleeper Float64 0 maxInterval0 None) w
  = repeat 0 (List.length cs).
Proof.
  intros Hmax Hlive Hfin. revert w.
  induction cs as [| [ctx ready] cs IH]; intros w; [reflexivity |].
  pose proof (Forall_inv Hlive) as Hctx. cbn [fst] in Hctx.
  pose proof (Forall_inv_tail Hlive) as Hrest.
  rewrite intervals_cons by (cbn; assumption).
  rewrite interval_of_below by (cbn; assumption).
  cbn [BackoffSleeper algorithm init].
  rewrite (DefaultBackoff_zero Float64 w (Hfin w)). cbn [fst snd].
  change (set_init _ 0) with (BackoffSleeper Float64 0 maxInterval0 None).
  rewrite (IH Hrest). reflexivity.
Qed.

Lemma BackoffSleeper_zero_init_witness :
  intervals (repeat (Background, TimerC) 3)
    (BackoffSleeper draw_most 0 Second None) tt
  = [0; 0; 0].
Proof.
  apply (BackoffSleeper_zero_init draw_most Second
           (repeat (Background, TimerC) 3) tt).
  - reflexivity.
  - repeat constructor.
  - intros w0. vm_compute. reflexivity.
Defined.

(** ** Facts: more on IdleCounter *)



(** X20: [Add] followed by [Done] leaves the job count as it was, and
    leaves the quiet timer running exactly when that count is zero: set to
    the counter's [duration] if so, stopped if not. *)
Theorem Add_then_Done (de : IdleCounter) :
  0 <= job de < MaxInt64 ->
  exists de1,
    Done (Add de) = Returned de1
    /\ job de1 = job de /\ duration de1 = duration de
    /\ (armed de1 = true <-> job de = 0)
    /\ (job de = 0 -> period (tmr de1) = duration de).
Proof.
  intros Hj. unfold Done, Add.
  cbn [set_job set_tmr job tmr duration].
  rewrite (wrap64_id (job de + 1)) by (unfold MinInt64, MaxInt64 in *; lia).
  replace (job de + 1 - 1) with (job de) by lia.
  rewrite wrap64_id by (unfold MinInt64, MaxInt64 in *; lia).
  destruct (Z.eqb_spec (job de) 0) as [H0 | Hn0]; cbn [job set_tmr].
  - rewrite H0. cbn. eexists. split; [reflexivity |]. cbn.
    repeat split; auto.
  - cbn [job set_job].
    destruct (Z.ltb_spec (job de) 0) as [Hlt | _]; [lia |].
    eexists. split; [reflexivity |]. cbn.
    repeat split; auto; try discriminate; intros; contradiction.
Qed.

Lemma Add_then_Done_witness :
  exists de1,
    Done (Add (NewIdleCounter 5)) = Returned de1
    /\ job de1 = 0 /\ duration de1 = 5
    /\ (armed de1 = true <-> 0 = 0)
    /\ (0 = 0 -> period (tmr de1) = 5).
Proof.
  apply (Add_then_Done (NewIdleCounter 5)).
  cbn. unfold MaxInt64. lia.
Defined.

(** X21: [Wait] on a counter without jobs always returns; when no stale
    tick is in the timer's channel and the token is never canceled, it
    returns by the quiet timer, set to the counter's [duration], having
    run out.  [Wait] on a counter that has jobs, a stopped timer and no
    tick in the channel does not return under a token that is never
    canceled, as long as no other goroutine steps in. *)
Theorem Wait_idle_or_blocked
  (ctx : Context) (ready : selected) (de : IdleCounter) :
  (job de = 0 -> exists de1, Wait ctx ready de = Some de1)
  /\ (job de = 0 -> C (tmr de) = false -> never_canceled ctx ->
      Wait ctx ready de
      = Some (set_tmr de {| active := false; period := duration de;
                            C := false |}))
  /\ (job de <> 0 -> active (tmr de) = false -> C (tmr de) = false ->
      never_canceled ctx -> Wait ctx ready de = None).
Proof.
  unfold Wait, Wait_lock, never_canceled. split; [| split].
  - intros H0. rewrite H0. cbn [Z.eqb set_tmr tmr Timer_Reset active C].
    rewrite orb_true_r.
    destruct (Err ctx) as [e |], ready; eexists; reflexivity.
  - intros H0 HC Hctx. rewrite H0, Hctx.
    cbn [Z.eqb set_tmr tmr Timer_Reset active C]. rewrite HC.
    cbn. destruct ready; reflexivity.
  - intros Hn Ha HC Hctx.
    destruct (Z.eqb_spec (job de) 0) as [H0 | _]; [contradiction |].
    rewrite Ha, HC, Hctx. destruct ready; reflexivity.
Qed.

Lemma Wait_idle_or_blocked_witness :
  (exists de1, Wait Background TimerC (NewIdleCounter 5) = Some de1)
  /\ Wait Background TimerC (NewIdleCounter 5)
     = Some (set_tmr (NewIdleCounter 5)
               {| active := false; period := 5; C := false |})
  /\ Wait Background TimerC (Add (NewIdleCounter 5)) = None.
Proof.
  split; [| split].
  - apply (Wait_idle_or_blocked Background TimerC (NewIdleCounter 5)).
    reflexivity.
  - apply (Wait_idle_or_blocked Background TimerC (NewIdleCounter 5));
      reflexivity.
  - apply (Wait_idle_or_blocked Background TimerC (Add (NewIdleCounter 5)));
      (reflexivity || discriminate).
Defined.

Lemma adds_cons (o : op) (os : list op) :
  adds (o :: os)
  = match o with
    | OpAdd => Datatypes.S (adds os)
    | _ => adds os
    end.
Proof. unfold adds. destruct o; reflexivity. Qed.

Lemma dones_cons (o : op) (os : list op) :
  dones (o :: os)
  = match o with
    | OpDone => Datatypes.S (dones os)
    | _ => dones os
    end.
Proof. unfold dones. destruct o; reflexivity. Qed.

(** What one step that does not panic does to the job count. *)
Lemma step_job (o : op) (de de1 : IdleCounter) :
  0 <= job de < MaxInt64 ->
  step o de = Some de1 ->
  job de1 = job de + Z.of_nat (adds [o]) - Z.of_nat (dones [o])
  /\ 0 <= job de1 /\ duration de1 = duration de.
Proof.
  intros Hj Hstep. destruct o; cbn [step] in Hstep.
  - injection Hstep as <-. unfold Add. cbn [set_job set_tmr job duration].
    rewrite wrap64_id by (unfold MinInt64, MaxInt64 in *; lia).
    cbn. lia.
  - unfold Done in Hstep. cbn [set_job job tmr duration] in Hstep.
    rewrite wrap64_id in Hstep by (unfold MinInt64, MaxInt64 in *; lia).
    destruct (Z.eqb_spec (job de - 1) 0) as [H0 | Hn0];
      cbn [set_tmr set_job job] in Hstep.
    + rewrite H0 in Hstep. cbn in Hstep. injection Hstep as <-. cbn. lia.
    + destruct (Z.ltb_spec (job de - 1) 0) as [Hlt | Hge];
        [discriminate Hstep |].
      injection Hstep as <-. cbn. lia.
  - injection Hstep as <-. unfold Wait_lock.
    destruct (job de =? 0); cbn; lia.
  - injection Hstep as <-. cbn. lia.
  - destruct (C (tmr de)); [| discriminate Hstep].
    injection Hstep as <-. cbn. lia.
  - destruct (active (tmr de)); [| discriminate Hstep].
    injection Hstep as <-. cbn. lia.
Qed.

Lemma steps_job (os : list op) :
  forall de de1 : IdleCounter,
    0 <= job de -> job de + Z.of_nat (List.length os) <= MaxInt64 ->
    steps os de = Some de1 ->
    job de1 = job de + Z.of_nat (adds os) - Z.of_nat (dones os)
    /\ 0 <= job de1 /\ duration de1 = duration de.
Proof.
  induction os as [| o os IH]; intros de de1 Hj Hlen Hrun;
    cbn [steps] in Hrun.
  - injection Hrun as <-. cbn. lia.
  - cbn [List.length] in Hlen.
    destruct (step o de) as [de2 |] eqn:Hstep; [| discriminate Hrun].
    destruct (step_job o de de2) as (H1 & H2 & H3); [lia | exact Hstep |].
    rewrite adds_cons, dones_cons in H1.
    destruct (IH de2 de1) as (H4 & H5 & H6); [exact H2 | | exact Hrun |].
    + destruct o; cbn in H1; lia.
    + rewrite adds_cons, dones_cons.
      destruct o; cbn in H1; repeat split; lia || congruence.
Qed.

(** X22: in every state that a trace of at most [MaxInt64] steps reaches
    from [NewIdleCounter d] without a panic, the job count is the number
    of [Add]s minus the number of [Done]s of the trace, it is not
    negative, and the quiet duration is still [d]. *)
Theorem job_counts_outstanding
  (d : Duration) (os : list op) (de : IdleCounter) :
  Z.of_nat (List.length os) <= MaxInt64 ->
  steps os (NewIdleCounter d) = Some de ->
  job de = Z.of_nat (adds os) - Z.of_nat (dones os)
  /\ 0 <= job de /\ duration de = d.
Proof.
  intros Hlen Hrun.
  destruct (steps_job os (NewIdleCounter d) de) as (H1 & H2 & H3);
    cbn [NewIdleCounter job]; try (assumption || lia).
  cbn [NewIdleCounter job duration] in H1, H3. repeat split; lia.
Qed.

Lemma job_counts_outstanding_witness :
  let os := [OpAdd; OpAdd; OpWaitLock; OpDone] in
  let de := {| job := 1; duration := 5;
               tmr := {| active := false; period := Hour; C := false |} |} in
  job de = Z.of_nat (adds os) - Z.of_nat (dones os)
  /\ 0 <= job de /\ duration de = 5.
Proof.
  apply (job_counts_outstanding 5 [OpAdd; OpAdd; OpWaitLock; OpDone]).
  - unfold MaxInt64. cbn. lia.
  - reflexivity.
Defined.
